(** * ewgpal: a shallow embedding of [ewgpal.py]

    The script loads every [settings/biomes/*/*.json] file of an
    EpicWorldGenerator world, groups the biome records by [biomeType],
    extracts one colour patch per entry of [biomeColors], plans a grid and
    draws it with PIL.  This file models the script with the debug output
    switched off ([--debug] not given).

    Python exceptions are modelled by the error monad [res]: [inl e] is an
    exception [e] that propagates out of the script (nothing in the script
    catches anything but [JSONDecodeError]).  The third-party libraries
    (simplejson's parser, PIL's font metrics and colour parser) are section
    variables: the script uses them, it does not define them. *)

From Stdlib Require Import String Ascii List ZArith QArith Lia Bool.
From Stdlib Require Import Sorting.Sorted Sorting.Permutation.
Import ListNotations.

Local Open Scope Z_scope.

(** ** Python values *)

Local Set Warnings "-register-all".

(** The values [simplejson.load] can return. *)
Inductive json :=
| JNull
| JBool (b : bool)
| JNum (q : Q)
| JStr (s : string)
| JArr (xs : list json)
| JObj (kvs : list (string * json)).

(** The exceptions the script can raise. [Unmodelled] marks inputs whose
    Python behaviour depends on features outside this model (dictionary
    keys that are numbers, booleans or [None]; iteration over a dict). *)
Inductive exn :=
| KeyError (key : string)
| TypeError (what : string)
| AttributeError (what : string)
| ValueError (what : string)
| ZeroDivisionError
| Unmodelled (what : string).

Definition res (A : Type) : Type := (exn + A)%type.

Definition bind {A B} (m : res A) (k : A -> res B) : res B :=
  match m with
  | inl e => inl e
  | inr a => k a
  end.

Notation "x <- m ;; k" := (bind m (fun x => k))
  (at level 61, m at next level, right associativity).

(** Iterate a fallible loop body over a list (a Python [for] loop whose
    body may raise). *)
Fixpoint fold_res {A B} (f : B -> A -> res B) (l : list A) (b : B) : res B :=
  match l with
  | [] => inr b
  | x :: l' => b' <- f b x ;; fold_res f l' b'
  end.

(** ** Python dictionaries with string keys, as association lists *)

Fixpoint dict_get {V} (k : string) (d : list (string * V)) : option V :=
  match d with
  | [] => None
  | (k', v) :: d' => if String.eqb k k' then Some v else dict_get k d'
  end.

(** [d[k] = v]: an existing key keeps its place, a new key goes last. *)
Fixpoint dict_set {V} (k : string) (v : V) (d : list (string * V))
  : list (string * V) :=
  match d with
  | [] => [(k, v)]
  | (k', v') :: d' =>
      if String.eqb k k' then (k', v) :: d' else (k', v') :: dict_set k v d'
  end.

(** [d[k]] on a [defaultdict] whose factory builds [dflt]. *)
Definition dict_default {V} (dflt : V) (k : string) (d : list (string * V)) : V :=
  match dict_get k d with
  | Some v => v
  | None => dflt
  end.

Definition dict_keys {V} (d : list (string * V)) : list string := map fst d.

(** [sorted(keys)]: Python 2 [str] keys compare byte by byte, which is
    [String.compare].  Keys of a dict are distinct, so any correct sort
    (here insertion sort, in the script Timsort) gives the same list. *)
Fixpoint insert_sorted (x : string) (l : list string) : list string :=
  match l with
  | [] => [x]
  | y :: l' => if String.leb x y then x :: y :: l' else y :: insert_sorted x l'
  end.

Fixpoint sorted (l : list string) : list string :=
  match l with
  | [] => []
  | x :: l' => insert_sorted x (sorted l')
  end.

(** Subscription [j[k]] of a parsed JSON value.  simplejson builds a dict
    by assigning the members in order, so a repeated member keeps its last
    value. *)
Definition getitem (j : json) (k : string) : res json :=
  match j with
  | JObj kvs =>
      match dict_get k (rev kvs) with
      | Some v => inr v
      | None => inl (KeyError k)
      end
  | JArr _ => inl (TypeError "list indices must be integers")
  | JStr _ => inl (TypeError "string indices must be integers")
  | _ => inl (TypeError "object has no attribute '__getitem__'")
  end.

(** Python truth value. *)
Definition truthy (j : json) : bool :=
  match j with
  | JNull => false
  | JBool b => b
  | JNum q => negb (Qeq_bool q 0)
  | JStr s => negb (String.eqb s EmptyString)
  | JArr xs => negb (Nat.eqb (List.length xs) 0)
  | JObj kvs => negb (Nat.eqb (List.length kvs) 0)
  end.

(** A value used as a dictionary key. *)
Definition dict_key (j : json) : res string :=
  match j with
  | JStr s => inr s
  | JArr _ => inl (TypeError "unhashable type: 'list'")
  | JObj _ => inl (TypeError "unhashable type: 'dict'")
  | _ => inl (Unmodelled "non-string biomeType")
  end.

(** [str(n)] for an integer [n]. *)
Fixpoint digits_of_nat (fuel : nat) (n : N) (acc : string) : string :=
  match fuel with
  | O => acc
  | S fuel' =>
      let d := Ascii.ascii_of_N (48 + N.modulo n 10) in
      let q := N.div n 10 in
      if N.eqb q 0 then String d acc else digits_of_nat fuel' q (String d acc)
  end.

Definition str (z : Z) : string :=
  let body := digits_of_nat (S (N.size_nat (Z.to_N (Z.abs z)))) (Z.to_N (Z.abs z)) EmptyString in
  if z <? 0 then String "-" body else body.

(** ** [os.path.basename] and the root returned by [os.path.splitext] *)

Fixpoint basename_go (p acc : string) : string :=
  match p with
  | EmptyString => acc
  | String c p' =>
      if Ascii.eqb c "/" then basename_go p' EmptyString
      else basename_go p' (acc ++ String c EmptyString)%string
  end.

Definition basename (p : string) : string := basename_go p EmptyString.

Fixpoint last_index_of (c : ascii) (l : list ascii) (i : nat) (found : option nat)
  : option nat :=
  match l with
  | [] => found
  | c' :: l' => last_index_of c l' (S i) (if Ascii.eqb c c' then Some i else found)
  end.

(** [genericpath._splitext] on a path without separator: the extension
    starts at the last dot, unless only dots precede it. *)
Definition splitext_root (p : string) : string :=
  let cs := list_ascii_of_string p in
  match last_index_of "." cs 0 None with
  | None => p
  | Some i =>
      if existsb (fun c => negb (Ascii.eqb c ".")) (firstn i cs)
      then string_of_list_ascii (firstn i cs)
      else p
  end.

(** ** The two helper functions *)

(** Python's [s.startswith(pre)]. *)
Fixpoint startswith (s pre : string) : bool :=
  match pre, s with
  | EmptyString, _ => true
  | String c pre', String c' s' => Ascii.eqb c c' && startswith s' pre'
  | String _ _, EmptyString => false
  end.

(** [colorCode(hex)]: [hex if hex.startswith('#') else '#' + hex]. *)
Definition colorCode (hex : string) : string :=
  if startswith hex "#" then hex else ("#" ++ hex)%string.

(** [contrastingColor(rgb)].  With [from __future__ import division] the
    brightness is a float; it is the exact quotient here, which is what the
    float comparison with [123] decides for integer components. *)
Definition brightness (rgb : Z * Z * Z) : Q :=
  let '(r, g, b) := rgb in
  (inject_Z (r * 299 + g * 587 + b * 114) / inject_Z 1000)%Q.

Definition contrastingColor (rgb : Z * Z * Z) : string :=
  match Qcompare (brightness rgb) (inject_Z 123) with
  | Lt => "#ffffff"
  | _ => "#000000"
  end.

(** ** Inputs and outputs of a run *)

(** A file matched by [glob(world_dir + '/settings/biomes/*/*.json')], in
    the order glob returns them. *)
Record file := { fileName : string; fileText : string }.

(** Outcome of [simplejson.load]. *)
Inductive parse_result :=
| Parsed (j : json)
| JSONDecodeError (lineno colno : Z) (msg : string).

(** One entry of [biomePatches[biomeType]]. *)
Record patch := { biomeName : string; biomeColor : string }.

(** Colours as PIL's [ImageDraw] receives them. *)
Inductive color :=
| CName (s : string)
| CRgb (rgb : Z * Z * Z).

(** PIL drawing calls, in the order the script issues them.  Text
    positions are true divisions of integers (floats in the script); they
    are exact halves, kept as rationals. *)
Inductive draw_op :=
| DrawRect (x0 y0 x1 y1 : Z) (fill outline : color)
| DrawText (x y : Q) (text : string) (fill : string).

(** The image [img.save] writes. *)
Record image := {
  imgWidth : Z;
  imgHeight : Z;
  imgBackground : string;
  imgOps : list draw_op
}.

(** [biomesByType]: biomeType -> (baseName -> biome record). *)
Definition biomes_by_type := list (string * list (string * json)).

(** [biomePatches]: biomeType -> list of patches. *)
Definition biome_patches := list (string * list patch).

(** The values the script computes to plan the grid. *)
Record layout := {
  maxPatches : Z;
  wrapColumns : Z;
  biomeTypeRows : list (string * Z);
  rows : Z;
  columns : Z;
  patchPadding : Z;
  firstColumnWidth : Z;
  patchWidth : Z;
  patchHeight : Z;
  imageWidth : Z;
  imageHeight : Z
}.

(** [int(ceil(pow(n, 1/3.0)))].  The float cube root is modelled by the
    exact ceiling cube root (the least [k >= 0] with [n <= k^3]): for the
    patch counts the script meets, [pow] is close enough to the real cube
    root that its ceiling is this integer. *)
Fixpoint cbrt_up_from (k : Z) (fuel : nat) (n : Z) : Z :=
  match fuel with
  | O => k
  | S fuel' => if n <=? k ^ 3 then k else cbrt_up_from (k + 1) fuel' n
  end.

Definition ceil_cbrt (n : Z) : Z := cbrt_up_from 0 (S (Z.to_nat n)) n.

(** Python's [a // b] on integers. *)
Definition py_floordiv (a b : Z) : res Z :=
  if b =? 0 then inl ZeroDivisionError else inr (a / b).

(** Python's [max] over a list of integers. *)
Definition py_max (l : list Z) : res Z :=
  match l with
  | [] => inl (ValueError "max() arg is an empty sequence")
  | x :: l' => inr (fold_left Z.max l' x)
  end.

(** [maxSize(sizes)], with [sizes] its star argument: defined by the
    script, never called. *)
Definition maxSize (sizes : list (Z * Z)) : res (Z * Z) :=
  maxWidth <- py_max (map fst sizes) ;;
  maxHeight <- py_max (map snd sizes) ;;
  inr (maxWidth, maxHeight).

(** [range(n)]. *)
Definition range (n : Z) : list Z := map Z.of_nat (seq 0 (Z.to_nat n)).

Definition Qz (z : Z) : Q := inject_Z z.

Section Program.

(** [simplejson.load] on the text of a file. *)
Variable simplejson_load : string -> parse_result.
(** [font.getsize] and [draw.textsize] for the 16pt Arial font. *)
Variable getsize : string -> Z * Z.
Variable textsize : string -> Z * Z.
(** [ImageColor.getrgb]: [None] where PIL raises [ValueError]. *)
Variable getrgb : string -> option (Z * Z * Z).

(** *** Loading: the body of [for biomeFileName in glob(...)] *)

(** One file: the diagnostics it prints and the new [biomesByType], or
    the exception that escapes the [try]. *)
Definition load_file (biomesByType : biomes_by_type) (f : file)
  : list string * res biomes_by_type :=
  let baseName := splitext_root (basename (fileName f)) in
  match simplejson_load (fileText f) with
  | JSONDecodeError lineno colno msg =>
      (["JSON error: " ++ fileName f ++ ": line " ++ str lineno ++
        ", column " ++ str colno ++ ": " ++ msg]%string, inr biomesByType)
  | Parsed biome =>
      ([], enabled <- getitem biome "enabled" ;;
           let enabledStatus := if truthy enabled then "Enabled"%string else "Disabled"%string in
           bt <- getitem biome "biomeType" ;;
           biomeType <- dict_key bt ;;
           inr (dict_set biomeType
                  (dict_set baseName biome (dict_default [] biomeType biomesByType))
                  biomesByType))
  end.

(** The loop over all files; the diagnostics printed before an exception
    are kept. *)
Fixpoint load_files (biomesByType : biomes_by_type) (fs : list file)
  : list string * res biomes_by_type :=
  match fs with
  | [] => ([], inr biomesByType)
  | f :: fs' =>
      let (errs, r) := load_file biomesByType f in
      match r with
      | inl e => (errs, inl e)
      | inr st =>
          let (errs', r') := load_files st fs' in
          (errs ++ errs', r')
      end
  end.

(** *** Patch extraction *)

(** [for biomeColor in biome['biomeColors']]: what Python iterates. *)
Definition iter_colors (v : json) : res (list json) :=
  match v with
  | JArr xs => inr xs
  | JStr s => inr (map (fun c => JStr (String c EmptyString)) (list_ascii_of_string s))
  | JObj _ => inl (Unmodelled "iteration over a dict")
  | _ => inl (TypeError "object is not iterable")
  end.

(** [colorCode(biomeColor)] on a JSON value: [startswith] exists only on
    strings. *)
Definition colorCode_json (v : json) : res string :=
  match v with
  | JStr s => inr (colorCode s)
  | _ => inl (AttributeError "startswith")
  end.

(** [biomePatches[biomeType].append(p)] on a [defaultdict(list)]. *)
Definition append_patch (biomeType : string) (p : patch) (bp : biome_patches)
  : biome_patches :=
  dict_set biomeType (dict_default [] biomeType bp ++ [p]) bp.

Definition extract_biome (biomesByType : biomes_by_type) (biomeType : string)
    (bp : biome_patches) (biomeName : string) : res biome_patches :=
  biome <- match dict_get biomeName (dict_default [] biomeType biomesByType) with
           | Some b => inr b
           | None => inl (KeyError biomeName)
           end ;;
  cv <- getitem biome "biomeColors" ;;
  cs <- iter_colors cv ;;
  fold_res (fun bp c =>
              code <- colorCode_json c ;;
              inr (append_patch biomeType {| biomeName := biomeName; biomeColor := code |} bp))
           cs bp.

Definition extract_type (biomesByType : biomes_by_type) (bp : biome_patches)
    (biomeType : string) : res biome_patches :=
  fold_res (extract_biome biomesByType biomeType)
           (sorted (dict_keys (dict_default [] biomeType biomesByType))) bp.

Definition extract (biomesByType : biomes_by_type) : res biome_patches :=
  fold_res (extract_type biomesByType) (sorted (dict_keys biomesByType)) [].

(** *** Planning the grid *)

(** The body of the loop computing [patchWidth] and [patchHeight]. *)
Definition patch_size_step (patchPadding : Z) (acc : Z * Z) (p : patch) : Z * Z :=
  let '(patchWidth, patchHeight) := acc in
  let textSize := getsize (biomeName p) in
  (Z.max (fst textSize + 2 * patchPadding) patchWidth,
   Z.max (7 * snd textSize + 2 * patchPadding) patchHeight).

(** [biomeTypeRows] and [rows]: the loop over [biomePatches.iteritems()]. *)
Definition wrap_rows (wrapColumns : Z) (bp : biome_patches)
  : res (list (string * Z) * Z) :=
  fold_res (fun acc tp =>
              let '(btr, rows) := acc in
              let '(biomeType, patches) := tp in
              wrappedRows <- py_floordiv (wrapColumns - 1 + Z.of_nat (List.length patches)) wrapColumns ;;
              inr (dict_set biomeType wrappedRows btr, rows + wrappedRows))
           bp ([], 0).

Definition plan (bp : biome_patches) : res layout :=
  maxPatches <- py_max (map (fun tp => Z.of_nat (List.length (snd tp))) bp) ;;
  let wrapColumns := 3 * ceil_cbrt maxPatches in
  wr <- wrap_rows wrapColumns bp ;;
  let columns := Z.min maxPatches wrapColumns in
  let patchPadding := fst (getsize "   ") in
  widest <- py_max (map (fun tp => fst (getsize (fst tp))) bp) ;;
  let firstColumnWidth := 2 * patchPadding + widest in
  let pwh := fold_left (patch_size_step patchPadding) (concat (map snd bp)) (0, 0) in
  inr {| maxPatches := maxPatches;
         wrapColumns := wrapColumns;
         biomeTypeRows := fst wr;
         rows := snd wr;
         columns := columns;
         patchPadding := patchPadding;
         firstColumnWidth := firstColumnWidth;
         patchWidth := fst pwh;
         patchHeight := snd pwh;
         imageWidth := 1 + firstColumnWidth + fst pwh * columns;
         imageHeight := 1 + snd pwh * snd wr |}.

(** *** Drawing *)

(** The three lines of text of a patch, drawn from [textY] down. *)
Fixpoint draw_lines (x0 : Q) (patchWidth : Z) (lineGap : Q) (fill : string)
    (textY : Q) (lines : list string) : list draw_op :=
  match lines with
  | [] => []
  | line :: lines' =>
      let '(lineW, lineH) := textsize line in
      DrawText (x0 + (Qz patchWidth - Qz lineW) / Qz 2) textY line fill
        :: draw_lines x0 patchWidth lineGap fill (textY + Qz lineH + lineGap) lines'
  end.

(** The patch in column [c] of grid row [row]. *)
Definition draw_patch (L : layout) (row c : Z) (p : patch) : res (list draw_op) :=
  let colorName := biomeColor p in
  rgb <- match getrgb colorName with
         | Some rgb => inr rgb
         | None => inl (ValueError "unknown color specifier")
         end ;;
  let '(r, g, b) := rgb in
  let fcw := firstColumnWidth L in
  let pw := patchWidth L in
  let ph := patchHeight L in
  let lines := [biomeName p; colorName; (str r ++ "  " ++ str g ++ "  " ++ str b)%string] in
  let line0Height := snd (textsize (biomeName p)) in
  let lineGap := (Qz line0Height / Qz 2)%Q in
  let totalTextHeight := (Qz 3 * Qz line0Height + Qz 2 * lineGap)%Q in
  let textY := (Qz (row * ph) + (Qz ph - totalTextHeight) / Qz 2)%Q in
  inr (DrawRect (fcw + c * pw) (row * ph) (fcw + (c + 1) * pw) ((row + 1) * ph)
                (CRgb rgb) (CName "#000000")
       :: draw_lines (Qz (fcw + (c mod columns L) * pw)) pw lineGap
                     (contrastingColor rgb) textY lines).

(** [for c in range(columns)] with its [break]. *)
Fixpoint draw_cells (L : layout) (patches : list patch) (row r : Z) (cs : list Z)
  : res (list draw_op) :=
  match cs with
  | [] => inr []
  | c :: cs' =>
      let patchIndex := r * columns L + c in
      if Z.of_nat (List.length patches) <=? patchIndex then inr []
      else
        ops <- draw_patch L row c (nth (Z.to_nat patchIndex) patches
                                       {| biomeName := ""; biomeColor := "" |}) ;;
        ops' <- draw_cells L patches row r cs' ;;
        inr (ops ++ ops')
  end.

(** [for r in range(biomeTypeRows[biomeType])]; [row] is the global row
    counter. *)
Fixpoint draw_rows (L : layout) (biomeType : string) (patches : list patch)
    (row : Z) (rs : list Z) : res (list draw_op * Z) :=
  match rs with
  | [] => inr ([], row)
  | r :: rs' =>
      let textSize := getsize biomeType in
      let fcw := firstColumnWidth L in
      let ph := patchHeight L in
      let label :=
        [DrawRect 0 (row * ph) fcw ((row + 1) * ph) (CName "#404040") (CName "#000000");
         DrawText ((Qz fcw - Qz (fst textSize)) / Qz 2)%Q
                  (Qz (row * ph) + (Qz ph - Qz (snd textSize)) / Qz 2)%Q
                  biomeType "#ffffff"] in
      cells <- draw_cells L patches row r (range (columns L)) ;;
      rest <- draw_rows L biomeType patches (row + 1) rs' ;;
      inr (label ++ cells ++ fst rest, snd rest)
  end.

(** [for biomeType in sorted(biomePatches.keys())]. *)
Definition draw_type (bp : biome_patches) (L : layout) (acc : list draw_op * Z)
    (biomeType : string) : res (list draw_op * Z) :=
  let patches := dict_default [] biomeType bp in
  n <- match dict_get biomeType (biomeTypeRows L) with
       | Some n => inr n
       | None => inl (KeyError biomeType)
       end ;;
  out <- draw_rows L biomeType patches (snd acc) (range n) ;;
  inr (fst acc ++ fst out, snd out).

Definition render (bp : biome_patches) (L : layout) : res (list draw_op) :=
  out <- fold_res (draw_type bp L) (sorted (dict_keys bp)) ([], 0) ;;
  inr (fst out).

(** *** The whole script *)

(** The lines printed on stderr, and the saved image or the exception
    that ends the script. *)
Definition run (fs : list file) : list string * res image :=
  let (errs, r) := load_files [] fs in
  (errs,
   biomesByType <- r ;;
   biomePatches <- extract biomesByType ;;
   L <- plan biomePatches ;;
   ops <- render biomePatches L ;;
   inr {| imgWidth := imageWidth L;
          imgHeight := imageHeight L;
          imgBackground := "#404040";
          imgOps := ops |}).

End Program.

(** ** A concrete environment for running the model *)

Module Sample.

(** Hex digit value, for a 6-digit [#rrggbb] colour parser. *)
Definition hex_val (c : ascii) : option Z :=
  let n := Z.of_N (Ascii.N_of_ascii c) in
  if (48 <=? n) && (n <=? 57) then Some (n - 48)
  else if (97 <=? n) && (n <=? 102) then Some (n - 87)
  else if (65 <=? n) && (n <=? 70) then Some (n - 55)
  else None.

Definition hex2 (a b : ascii) : option Z :=
  match hex_val a, hex_val b with
  | Some x, Some y => Some (16 * x + y)
  | _, _ => None
  end.

(** [ImageColor.getrgb] restricted to the [#rrggbb] form. *)
Definition getrgb (s : string) : option (Z * Z * Z) :=
  match list_ascii_of_string s with
  | ["#"; r1; r2; g1; g2; b1; b2]%char =>
      match hex2 r1 r2, hex2 g1 g2, hex2 b1 b2 with
      | Some r, Some g, Some b => Some (r, g, b)
      | _, _, _ => None
      end
  | _ => None
  end.

(** A monospaced font: 8 pixels per character, 16 pixels high. *)
Definition getsize (s : string) : Z * Z := (8 * Z.of_nat (String.length s), 16).

(** Fixtures for the records the table refers to. *)
Definition no_type_kvs : list (string * json) :=
  [("enabled", JBool true); ("biomeColors", JArr [JStr "#123456"])]%string.

Definition no_enabled_kvs : list (string * json) :=
  [("biomeType", JStr "Forest"); ("biomeColors", JArr [JStr "#000000"])]%string.

Definition bare_kvs : list (string * json) :=
  [("enabled", JBool true); ("biomeType", JStr "Forest"); ("biomeColors", JArr [])]%string.

Definition bad_hex_kvs : list (string * json) :=
  [("enabled", JBool true); ("biomeType", JStr "Odd"); ("biomeColors", JArr [JStr "zz"])]%string.

Definition plain_kvs : list (string * json) :=
  [("enabled", JBool true); ("biomeType", JStr "Plain"); ("biomeColors", JStr "ab")]%string.

(** The parser, as a table from file text to parse outcome. *)
Definition table : list (string * parse_result) := [
  ("forest-a", Parsed (JObj [("enabled", JBool true); ("biomeType", JStr "Forest");
                             ("biomeColors", JArr [JStr "00ff00"])]));
  ("forest-b", Parsed (JObj [("enabled", JBool false); ("biomeType", JStr "Forest");
                             ("biomeColors", JArr [JStr "#008000"])]));
  ("desert", Parsed (JObj [("enabled", JBool true); ("biomeType", JStr "Desert");
                           ("biomeColors", JArr [JStr "#ffff00"; JStr "eeee00"; JStr "#dddd00"])]));
  ("forest-a-off", Parsed (JObj [("enabled", JBool false); ("biomeType", JStr "Forest");
                                 ("biomeColors", JArr [JStr "00ff00"])]));
  ("forest-b-on", Parsed (JObj [("enabled", JNum 1); ("biomeType", JStr "Forest");
                                ("biomeColors", JArr [JStr "#008000"])]));
  ("desert-off", Parsed (JObj [("enabled", JNull); ("biomeType", JStr "Desert");
                               ("biomeColors", JArr [JStr "#ffff00"; JStr "eeee00"; JStr "#dddd00"])]));
  ("no-type", Parsed (JObj no_type_kvs));
  ("no-enabled", Parsed (JObj no_enabled_kvs));
  ("bare", Parsed (JObj bare_kvs));
  ("bad-hex", Parsed (JObj bad_hex_kvs));
  ("plain", Parsed (JObj plain_kvs))
]%string.

Definition simplejson_load (text : string) : parse_result :=
  match dict_get text table with
  | Some r => r
  | None => JSONDecodeError 1 1 "Expecting value"
  end.

Definition f (name text : string) : file := {| fileName := name; fileText := text |}.

Definition forest_desert : list file :=
  [f "w/settings/biomes/a/Oak.json" "forest-a";
   f "w/settings/biomes/a/Birch.json" "forest-b";
   f "w/settings/biomes/b/Dunes.json" "desert"].

Definition run_sample := run simplejson_load getsize getsize getrgb.

(** The same three files with other [enabled] values. *)
Definition forest_desert_toggled : list file :=
  [f "w/settings/biomes/a/Oak.json" "forest-a-off";
   f "w/settings/biomes/a/Birch.json" "forest-b-on";
   f "w/settings/biomes/b/Dunes.json" "desert-off"].

Definition broken : file := f "w/settings/biomes/c/Broken.json" "garbage".
Definition stray : file := f "w/settings/biomes/c/Stray.json" "no-type".
Definition unflagged : file := f "w/settings/biomes/c/Unflagged.json" "no-enabled".
Definition bare : file := f "w/settings/biomes/c/Bare.json" "bare".
Definition weird : file := f "w/settings/biomes/c/Weird.json" "bad-hex".

(** What the run on [forest_desert] computes. *)
Definition fd_state : biomes_by_type :=
  Eval vm_compute in
  match snd (load_files simplejson_load [] forest_desert) with
  | inr st => st
  | inl _ => []
  end.

Definition fd_patches : biome_patches :=
  Eval vm_compute in
  match extract fd_state with inr bp => bp | inl _ => [] end.

Definition empty_image : image :=
  {| imgWidth := 0; imgHeight := 0; imgBackground := ""; imgOps := [] |}.

Definition fd_image : image :=
  Eval vm_compute in
  match snd (run_sample forest_desert) with inr img => img | inl _ => empty_image end.

(** A record whose [biomeColors] is a string rather than a list. *)
Definition plain : file := f "w/settings/biomes/p/Plain.json" "plain".

Definition plain_state : biomes_by_type :=
  Eval vm_compute in
  match snd (load_files simplejson_load [] [plain]) with
  | inr st => st
  | inl _ => []
  end.

Definition plain_patches : biome_patches :=
  Eval vm_compute in
  match extract plain_state with inr bp => bp | inl _ => [] end.

Definition weird_state : biomes_by_type :=
  Eval vm_compute in
  match snd (load_files simplejson_load [] [weird]) with
  | inr st => st
  | inl _ => []
  end.

Definition weird_patches : biome_patches :=
  Eval vm_compute in
  match extract weird_state with inr bp => bp | inl _ => [] end.

(** A second [Oak.json], in another subdirectory. *)
Definition oak_again : file := f "w/settings/biomes/z/Oak.json" "forest-b".

Definition no_layout : layout :=
  {| maxPatches := 0; wrapColumns := 0; biomeTypeRows := []; rows := 0; columns := 0;
     patchPadding := 0; firstColumnWidth := 0; patchWidth := 0; patchHeight := 0;
     imageWidth := 0; imageHeight := 0 |}.

(** The layout of [fd_patches]. *)
Definition fd_layout : layout :=
  Eval vm_compute in
  match plan getsize fd_patches with inr L => L | inl _ => no_layout end.

(** [fd_patches] with every colour code replaced by grey. *)
Definition fd_patches_grey : biome_patches :=
  map (fun tp => (fst tp, map (fun p => {| biomeName := biomeName p;
                                            biomeColor := "#808080" |}) (snd tp)))
      fd_patches.

End Sample.

(** ** Vocabulary of the properties *)

(** Strict byte-wise lexicographic order on strings. *)
Definition str_lt (a b : string) : Prop := String.compare a b = Lt.

(** The pattern [#[0-9A-Fa-f]{6}]. *)
Definition is_hex_digit (c : ascii) : bool :=
  match Sample.hex_val c with Some _ => true | None => false end.

Definition hex_pattern (s : string) : bool :=
  match s with
  | String c rest =>
      Ascii.eqb c "#" && Nat.eqb (String.length rest) 6
      && forallb is_hex_digit (list_ascii_of_string rest)
  | EmptyString => false
  end.

(** Two parsed records that differ at most in the values of their
    [enabled] members. *)
Definition same_but_enabled (j1 j2 : json) : Prop :=
  j1 = j2 \/
  exists kvs1 kvs2, j1 = JObj kvs1 /\ j2 = JObj kvs2 /\
    Forall2 (fun kv1 kv2 => fst kv1 = fst kv2 /\
                            (fst kv1 = "enabled"%string \/ snd kv1 = snd kv2)) kvs1 kvs2.

Definition parse_same_but_enabled (r1 r2 : parse_result) : Prop :=
  match r1, r2 with
  | Parsed j1, Parsed j2 => same_but_enabled j1 j2
  | _, _ => r1 = r2
  end.

(** Vocabulary of the extra properties. *)

(** The fill colours of the rectangles of a drawing, in drawing order. *)
Definition rect_fills (ops : list draw_op) : list (Z * Z * Z) :=
  flat_map (fun op => match op with
                      | DrawRect _ _ _ _ (CRgb rgb) _ => [rgb]
                      | _ => []
                      end) ops.

(** A rectangle whose corners are pixels of a [w] by [h] canvas. *)
Definition rect_inside (w h : Z) (op : draw_op) : Prop :=
  match op with
  | DrawRect x0 y0 x1 y1 _ _ => 0 <= x0 <= x1 /\ x1 <= w - 1 /\ 0 <= y0 <= y1 /\ y1 <= h - 1
  | DrawText _ _ _ _ => True
  end.

Definition inside_cell (L : layout) (R : Z) (op : draw_op) : Prop :=
  rect_inside (1 + firstColumnWidth L + patchWidth L * columns L) (1 + patchHeight L * R) op.

(** The patches in the order the rendering loop visits them. *)
Definition patches_in_order (bp : biome_patches) : list patch :=
  concat (map (fun t => dict_default [] t bp) (sorted (dict_keys bp))).

Definition rows_of (L : layout) (t : string) : Z :=
  match dict_get t (biomeTypeRows L) with Some n => n | None => 0 end.

Definition no_empty_list (bp : biome_patches) : Prop := Forall (fun tp => snd tp <> []) bp.

(** The biome types with the names of their patches, without colours. *)
Definition type_names (bp : biome_patches) : list (string * list string) :=
  map (fun tp => (fst tp, map biomeName (snd tp))) bp.

(** Black outlines, and text in white or black. *)
Definition op_colors_ok (op : draw_op) : Prop :=
  match op with
  | DrawRect _ _ _ _ _ outline => outline = CName "#000000"
  | DrawText _ _ _ fill => fill = "#ffffff"%string \/ fill = "#000000"%string
  end.

Section Vocabulary.

Variable simplejson_load : string -> parse_result.
Variable getrgb : string -> option (Z * Z * Z).

Definition accepted (p : patch) (rgb : Z * Z * Z) : Prop :=
  getrgb (biomeColor p) = Some rgb.

Definition color_ok (p : patch) : Prop := getrgb (biomeColor p) <> None.

(** The diagnostic line printed for a file simplejson cannot parse. *)
Definition json_diag (f : file) : list string :=
  match simplejson_load (fileText f) with
  | JSONDecodeError lineno colno msg =>
      ["JSON error: " ++ fileName f ++ ": line " ++ str lineno ++
       ", column " ++ str colno ++ ": " ++ msg]%string
  | Parsed _ => []
  end.

End Vocabulary.

(** ** General lemmas *)

Lemma bind_inr {A B} (m : res A) (k : A -> res B) (b : B) :
  bind m k = inr b -> exists a, m = inr a /\ k a = inr b.
Proof. destruct m as [e|a]; simpl; [discriminate | eauto]. Qed.

Ltac inv_bind H :=
  let a := fresh "a" in let Ha := fresh "Ha" in
  apply bind_inr in H; destruct H as [a [Ha H]].

Lemma dict_get_set_eq {V} (k : string) (v : V) d :
  dict_get k (dict_set k v d) = Some v.
Proof.
  induction d as [|[k' v'] d IH]; simpl.
  - now rewrite String.eqb_refl.
  - destruct (String.eqb k k') eqn:E; simpl; rewrite ?E; auto.
Qed.

Lemma dict_get_set_neq {V} (k k' : string) (v : V) d :
  k <> k' -> dict_get k' (dict_set k v d) = dict_get k' d.
Proof.
  intros Hne; induction d as [|[k0 v0] d IH]; simpl.
  - destruct (String.eqb_spec k' k); congruence.
  - destruct (String.eqb_spec k k0) as [->|Hk]; simpl.
    + destruct (String.eqb_spec k' k0); congruence.
    + now rewrite IH.
Qed.

Lemma dict_get_In_keys {V} (k : string) (d : list (string * V)) :
  dict_get k d <> None <-> In k (dict_keys d).
Proof.
  induction d as [|[k' v] d IH]; simpl; [tauto|].
  destruct (String.eqb_spec k k') as [->|Hk]; [split; [auto|discriminate]|].
  rewrite IH; split; [auto|intros [H|H]; [congruence|auto]].
Qed.

Lemma dict_keys_set {V} (k : string) (v : V) d :
  dict_keys (dict_set k v d) =
  if in_dec string_dec k (dict_keys d) then dict_keys d else dict_keys d ++ [k].
Proof.
  induction d as [|[k' v'] d IH]; simpl; [reflexivity|].
  destruct (String.eqb_spec k k') as [->|Hk]; simpl.
  - destruct (string_dec k' k'); [|congruence]; reflexivity.
  - rewrite IH. destruct (string_dec k' k); [congruence|].
    destruct (in_dec string_dec k (dict_keys d)); reflexivity.
Qed.

Lemma dict_set_NoDup {V} (k : string) (v : V) d :
  NoDup (dict_keys d) -> NoDup (dict_keys (dict_set k v d)).
Proof.
  intros H; rewrite dict_keys_set.
  destruct (in_dec string_dec k (dict_keys d)) as [_|Hn]; [exact H|].
  apply NoDup_app; auto using NoDup_cons, NoDup_nil.
  intros x Hx [<-|[]]; contradiction.
Qed.

Lemma dict_get_app {V} (k : string) (l1 l2 : list (string * V)) :
  dict_get k (l1 ++ l2) =
  match dict_get k l1 with Some v => Some v | None => dict_get k l2 end.
Proof.
  induction l1 as [|[k' v] l1 IH]; simpl; [reflexivity|].
  destruct (String.eqb k k'); auto.
Qed.

Lemma dict_set_Forall {V} (Q : V -> Prop) (k : string) (v : V) d :
  Forall (fun kv => Q (snd kv)) d -> Q v -> Forall (fun kv => Q (snd kv)) (dict_set k v d).
Proof.
  intros Hd Hv; induction Hd as [|[k' v'] d Hkv Hd IH]; simpl.
  - repeat constructor; exact Hv.
  - destruct (String.eqb k k'); constructor; auto.
Qed.

Lemma dict_get_Forall {V} (Q : V -> Prop) (k : string) (d : list (string * V)) v :
  Forall (fun kv => Q (snd kv)) d -> dict_get k d = Some v -> Q v.
Proof.
  induction 1 as [|[k' v'] d Hkv Hd IH]; simpl; [discriminate|].
  destruct (String.eqb k k'); [intros H; inversion H; subst; exact Hkv|exact IH].
Qed.

(** *** Insertion sort *)

Lemma insert_sorted_perm x l : Permutation (insert_sorted x l) (x :: l).
Proof.
  induction l as [|y l IH]; simpl; [auto|].
  destruct (String.leb x y); [auto|].
  rewrite IH; apply perm_swap.
Qed.

Lemma sorted_perm l : Permutation (sorted l) l.
Proof.
  induction l as [|x l IH]; simpl; [auto|].
  rewrite insert_sorted_perm; auto.
Qed.

Definition str_le (a b : string) : Prop := String.leb a b = true.

Lemma leb_false_flip a b : String.leb a b = false -> String.leb b a = true.
Proof. intros H; destruct (String.leb_total a b); congruence. Qed.

Lemma insert_sorted_Sorted x l :
  Sorted str_le l -> Sorted str_le (insert_sorted x l).
Proof.
  induction 1 as [|y l Hs IH Hhd]; simpl.
  - repeat constructor.
  - destruct (String.leb x y) eqn:E.
    + constructor; [constructor; auto|constructor; exact E].
    + constructor; [exact IH|].
      destruct l as [|z l]; simpl.
      * constructor; apply leb_false_flip; exact E.
      * inversion Hhd; subst.
        destruct (String.leb x z); constructor;
          [apply leb_false_flip; exact E|assumption].
Qed.

Lemma sorted_Sorted l : Sorted str_le (sorted l).
Proof. induction l; simpl; auto using insert_sorted_Sorted. Qed.

Lemma le_neq_lt a b : str_le a b -> a <> b -> str_lt a b.
Proof.
  unfold str_le, str_lt, String.leb; intros H Hne.
  destruct (String.compare a b) eqn:E; try discriminate; auto.
  apply String.compare_eq_iff in E; contradiction.
Qed.

Lemma Sorted_le_lt l : Sorted str_le l -> NoDup l -> Sorted str_lt l.
Proof.
  induction 1 as [|x l Hs IH Hhd]; intros Hnd; [constructor|].
  inversion Hnd; subst; constructor; [auto|].
  destruct Hhd as [|y l' Hxy]; constructor.
  apply le_neq_lt; [exact Hxy|]. intros ->; apply H1; left; reflexivity.
Qed.

(** [sorted] of a dict's keys lists them once each, in strictly increasing
    order. *)
Lemma sorted_keys_ok (l : list string) :
  NoDup l -> Sorted str_lt (sorted l) /\ Permutation (sorted l) l.
Proof.
  intros Hnd; split; [|apply sorted_perm].
  apply Sorted_le_lt; [apply sorted_Sorted|].
  eapply Permutation_NoDup; [symmetry; apply sorted_perm|exact Hnd].
Qed.

(** ** The helper functions *)

(** C8: [colorCode] leaves a string that starts with ['#'] unchanged and
    prepends exactly one ['#'] to any other string (the empty string
    included); hence [colorCode (colorCode s) = colorCode s] for every
    string [s]. *)
Theorem colorCode_idempotent :
  colorCode EmptyString = "#"%string /\
  (forall (c : ascii) (t : string),
     colorCode (String c t) =
     if Ascii.eqb c "#" then String c t else String "#" (String c t)) /\
  (forall s : string, colorCode (colorCode s) = colorCode s).
Proof.
  assert (Hp : forall c t, startswith (String c t) "#" = Ascii.eqb c "#").
  { intros c t; cbn [startswith]; destruct t; rewrite andb_true_r; apply Ascii.eqb_sym. }
  split; [reflexivity|]. split.
  - intros c t; unfold colorCode; rewrite Hp; reflexivity.
  - intros [|c t]; [reflexivity|].
    unfold colorCode at 2; rewrite Hp.
    destruct (Ascii.eqb c "#") eqn:E; unfold colorCode; rewrite Hp, ?E; reflexivity.
Qed.

(** C7: [contrastingColor] returns white exactly when the brightness
    [(R*299 + G*587 + B*114)/1000] is below [123] (that is, when the
    weighted sum is below [123000]) and black otherwise; black (0,0,0)
    gets white, white (255,255,255) gets black, and a brightness of
    exactly [123] gets black. *)
Theorem contrastingColor_threshold (r g b : Z) :
  (contrastingColor (r, g, b) = "#ffffff"%string <->
   (inject_Z (r * 299 + g * 587 + b * 114) / inject_Z 1000 < inject_Z 123)%Q) /\
  (contrastingColor (r, g, b) = "#000000"%string <->
   (inject_Z 123 <= inject_Z (r * 299 + g * 587 + b * 114) / inject_Z 1000)%Q) /\
  (contrastingColor (r, g, b) = "#ffffff"%string <->
   r * 299 + g * 587 + b * 114 < 123000) /\
  contrastingColor (0, 0, 0) = "#ffffff"%string /\
  contrastingColor (255, 255, 255) = "#000000"%string /\
  contrastingColor (0, 123000 / 587 + 1, 0) = "#000000"%string.
Proof.
  assert (Hz : forall x : Z,
             (inject_Z x / inject_Z 1000 < inject_Z 123)%Q <-> x < 123000).
  { intros x; unfold Qlt, Qdiv, Qmult, Qinv, inject_Z; simpl; lia. }
  assert (Hz' : forall x : Z,
             (inject_Z 123 <= inject_Z x / inject_Z 1000)%Q <-> 123000 <= x).
  { intros x; unfold Qle, Qdiv, Qmult, Qinv, inject_Z; simpl; lia. }
  unfold contrastingColor, brightness.
  set (x := r * 299 + g * 587 + b * 114).
  rewrite Hz, Hz'.
  destruct (Z.ltb_spec x 123000) as [Hx|Hx].
  - assert (E : Qcompare (inject_Z x / inject_Z 1000) (inject_Z 123) = Lt)
      by (apply Qlt_alt, Hz; exact Hx).
    rewrite E; repeat split; intros; try reflexivity; try discriminate; solve [lia | exfalso; lia].
  - assert (E : Qcompare (inject_Z x / inject_Z 1000) (inject_Z 123) <> Lt).
    { intros E; apply Qlt_alt in E; apply (proj1 (Hz x)) in E; lia. }
    destruct (Qcompare (inject_Z x / inject_Z 1000) (inject_Z 123));
      [| contradiction |]; repeat split; intros; try reflexivity; try discriminate; solve [lia | exfalso; lia].
Qed.

(** *** Lists, folds and related dictionaries *)

Lemma fold_res_ext {A B} (f g : B -> A -> res B) (l : list A) (b : B) :
  (forall b x, f b x = g b x) -> fold_res f l b = fold_res g l b.
Proof.
  intros Hfg; revert b; induction l as [|x l IH]; intros b; simpl; [reflexivity|].
  rewrite Hfg; destruct (g b x); simpl; auto.
Qed.

Section DictRel.
Context {V : Type} (R : V -> V -> Prop).

(** Two dicts with the same keys in the same order and related values. *)
Definition dict_rel (d1 d2 : list (string * V)) : Prop :=
  Forall2 (fun a b => fst a = fst b /\ R (snd a) (snd b)) d1 d2.

Definition option_rel (o1 o2 : option V) : Prop :=
  match o1, o2 with
  | Some v1, Some v2 => R v1 v2
  | None, None => True
  | _, _ => False
  end.

Lemma dict_rel_keys d1 d2 : dict_rel d1 d2 -> dict_keys d1 = dict_keys d2.
Proof. induction 1 as [|[] [] ? ? [? ?]]; simpl in *; subst; f_equal; auto. Qed.

Lemma dict_rel_get k d1 d2 : dict_rel d1 d2 -> option_rel (dict_get k d1) (dict_get k d2).
Proof.
  induction 1 as [|[k1 v1] [k2 v2] ? ? [Hk Hv]]; simpl in *; subst; [exact I|].
  destruct (String.eqb k k2); auto.
Qed.

Lemma dict_rel_default dflt k d1 d2 :
  R dflt dflt -> dict_rel d1 d2 -> R (dict_default dflt k d1) (dict_default dflt k d2).
Proof.
  intros Hd Hr; unfold dict_default.
  pose proof (dict_rel_get k d1 d2 Hr) as H.
  destruct (dict_get k d1), (dict_get k d2); simpl in H; tauto.
Qed.

Lemma dict_rel_set k v1 v2 d1 d2 :
  R v1 v2 -> dict_rel d1 d2 -> dict_rel (dict_set k v1 d1) (dict_set k v2 d2).
Proof.
  intros Hv; induction 1 as [|[k1 w1] [k2 w2] ? ? [Hk Hw]]; simpl in *; subst.
  - repeat constructor; auto.
  - destruct (String.eqb k k2); constructor; simpl; auto.
Qed.

End DictRel.

(** Records related by [same_but_enabled] agree on every member but
    [enabled], and have an [enabled] member together. *)
Lemma rev_members_rel (kvs1 kvs2 : list (string * json)) :
  Forall2 (fun kv1 kv2 : string * json => fst kv1 = fst kv2 /\
                          (fst kv1 = "enabled"%string \/ snd kv1 = snd kv2)) kvs1 kvs2 ->
  forall k,
    (k <> "enabled"%string -> dict_get k (rev kvs1) = dict_get k (rev kvs2)) /\
    (dict_get k (rev kvs1) = None <-> dict_get k (rev kvs2) = None).
Proof.
  induction 1 as [|[k1 v1] [k2 v2] l1 l2 [Hk Hv] Hr IH]; intros k; simpl in *;
    [tauto|subst].
  rewrite !dict_get_app; simpl.
  destruct (IH k) as [IH1 IH2].
  destruct (dict_get k (rev l1)) as [w1|] eqn:E1, (dict_get k (rev l2)) as [w2|] eqn:E2.
  - split; [intros Hne; exact (IH1 Hne)|split; discriminate].
  - exfalso; assert (Some w1 = None) by (apply IH2; reflexivity); discriminate.
  - exfalso; assert (Some w2 = None) by (apply IH2; reflexivity); discriminate.
  - split.
    + intros Hne; destruct (String.eqb_spec k k2) as [->|]; [|reflexivity].
      destruct Hv as [Hv|Hv]; [contradiction|congruence].
    + destruct (String.eqb k k2); split; congruence.
Qed.

Lemma getitem_same_but_enabled j1 j2 :
  same_but_enabled j1 j2 ->
  (forall k, k <> "enabled"%string -> getitem j1 k = getitem j2 k) /\
  (forall e, getitem j1 "enabled" = inl e <-> getitem j2 "enabled" = inl e).
Proof.
  intros [->|[kvs1 [kvs2 [-> [-> Hr]]]]]; [tauto|].
  split.
  - intros k Hk; simpl; destruct (rev_members_rel _ _ Hr k) as [H _].
    rewrite (H Hk); reflexivity.
  - intros e; simpl; destruct (rev_members_rel _ _ Hr "enabled") as [_ H].
    destruct (dict_get "enabled" (rev kvs1)), (dict_get "enabled" (rev kvs2));
      intuition congruence.
Qed.

(** ** Properties of a run *)

Section Properties.

Variable simplejson_load : string -> parse_result.
Variable getsize : string -> Z * Z.
Variable textsize : string -> Z * Z.
Variable getrgb : string -> option (Z * Z * Z).

(** *** Loading *)

Lemma load_files_app st pre rest :
  load_files simplejson_load st (pre ++ rest) =
  let (e1, r1) := load_files simplejson_load st pre in
  match r1 with
  | inl e => (e1, inl e)
  | inr st' => let (e2, r2) := load_files simplejson_load st' rest in (e1 ++ e2, r2)
  end.
Proof.
  revert st; induction pre as [|f pre IH]; intros st; simpl.
  - destruct (load_files simplejson_load st rest); reflexivity.
  - destruct (load_file simplejson_load st f) as [e0 [ex|st0]]; [reflexivity|].
    rewrite IH.
    destruct (load_files simplejson_load st0 pre) as [e1 [ex|st1]]; [reflexivity|].
    destruct (load_files simplejson_load st1 rest) as [e2 r2].
    rewrite app_assoc; reflexivity.
Qed.

(** An exception raised while loading file [f] ends the run there: the
    files after [f] are never read. *)
Lemma run_abort_at pre f rest errs st e1 ex :
  load_files simplejson_load [] pre = (errs, inr st) ->
  load_file simplejson_load st f = (e1, inl ex) ->
  run simplejson_load getsize textsize getrgb (pre ++ f :: rest) = (errs ++ e1, inl ex).
Proof.
  intros Hpre Hf; unfold run; rewrite load_files_app, Hpre; simpl.
  rewrite Hf; reflexivity.
Qed.

(** Dictionary keys stay distinct. *)
Definition keys_distinct (st : biomes_by_type) : Prop :=
  NoDup (dict_keys st) /\ Forall (fun tb => NoDup (dict_keys (snd tb))) st.

Lemma load_file_keys_distinct st f errs st' :
  keys_distinct st ->
  load_file simplejson_load st f = (errs, inr st') -> keys_distinct st'.
Proof.
  intros [Hnd Hin] Hf; unfold load_file in Hf.
  destruct (simplejson_load (fileText f)) as [biome|]; inversion Hf as [[He Hr]];
    [|subst; split; assumption].
  clear Hf; inv_bind Hr; inv_bind Hr; inv_bind Hr; inversion Hr; subst; clear Hr.
  split; [apply dict_set_NoDup, Hnd|].
  apply (dict_set_Forall (fun d => NoDup (dict_keys d))); [exact Hin|].
  apply dict_set_NoDup; unfold dict_default.
  destruct (dict_get a1 st) eqn:E; [|constructor].
  exact (dict_get_Forall (fun d => NoDup (dict_keys d)) _ _ _ Hin E).
Qed.

Lemma load_files_keys_distinct st fs errs st' :
  keys_distinct st ->
  load_files simplejson_load st fs = (errs, inr st') -> keys_distinct st'.
Proof.
  revert st errs; induction fs as [|f fs IH]; intros st errs Hk H; simpl in H.
  - inversion H; subst; exact Hk.
  - destruct (load_file simplejson_load st f) as [e0 [ex|st0]] eqn:Hf; [discriminate|].
    destruct (load_files simplejson_load st0 fs) as [e1 r1] eqn:Hr; inversion H; subst.
    exact (IH st0 e1 (load_file_keys_distinct _ _ _ _ Hk Hf) Hr).
Qed.

(** *** Runs on inputs that differ only in [enabled] *)

Definition res_rel {A} (R : A -> A -> Prop) (r1 r2 : res A) : Prop :=
  match r1, r2 with
  | inl e1, inl e2 => e1 = e2
  | inr a1, inr a2 => R a1 a2
  | _, _ => False
  end.

Definition state_rel : biomes_by_type -> biomes_by_type -> Prop :=
  dict_rel (dict_rel same_but_enabled).

Definition file_rel (f1 f2 : file) : Prop :=
  fileName f1 = fileName f2 /\
  parse_same_but_enabled (simplejson_load (fileText f1)) (simplejson_load (fileText f2)).

Lemma load_file_rel s1 s2 f1 f2 :
  state_rel s1 s2 -> file_rel f1 f2 ->
  fst (load_file simplejson_load s1 f1) = fst (load_file simplejson_load s2 f2) /\
  res_rel state_rel (snd (load_file simplejson_load s1 f1))
                    (snd (load_file simplejson_load s2 f2)).
Proof.
  intros Hs [Hn Hp]; unfold load_file; rewrite Hn.
  destruct (simplejson_load (fileText f1)) as [j1|l1 c1 m1],
           (simplejson_load (fileText f2)) as [j2|l2 c2 m2];
    simpl in Hp; try discriminate.
  - split; [reflexivity|].
    destruct (getitem_same_but_enabled _ _ Hp) as [Hk He].
    destruct (getitem j1 "enabled") as [e1|v1] eqn:E1,
             (getitem j2 "enabled") as [e2|v2] eqn:E2; simpl.
    + destruct (He e1) as [H _]; specialize (H eq_refl); congruence.
    + destruct (He e1) as [H _]; specialize (H eq_refl); discriminate.
    + destruct (He e2) as [_ H]; specialize (H eq_refl); discriminate.
    + rewrite (Hk "biomeType"%string) by discriminate.
      destruct (getitem j2 "biomeType") as [e|bt]; simpl; [reflexivity|].
      destruct (dict_key bt) as [e|t]; simpl; [reflexivity|].
      apply dict_rel_set; [|exact Hs].
      apply dict_rel_set; [exact Hp|].
      apply dict_rel_default; [constructor|exact Hs].
  - inversion Hp; subst; split; simpl; [reflexivity|exact Hs].
Qed.

Lemma load_files_rel fs1 fs2 s1 s2 :
  Forall2 file_rel fs1 fs2 -> state_rel s1 s2 ->
  fst (load_files simplejson_load s1 fs1) = fst (load_files simplejson_load s2 fs2) /\
  res_rel state_rel (snd (load_files simplejson_load s1 fs1))
                    (snd (load_files simplejson_load s2 fs2)).
Proof.
  intros Hf; revert s1 s2; induction Hf as [|f1 f2 fs1 fs2 Hf12 Hfs IH];
    intros s1 s2 Hs; simpl; [split; [reflexivity|exact Hs]|].
  destruct (load_file_rel s1 s2 f1 f2 Hs Hf12) as [He Hr].
  destruct (load_file simplejson_load s1 f1) as [e1 [x1|t1]],
           (load_file simplejson_load s2 f2) as [e2 [x2|t2]];
    simpl in *; subst; try contradiction; [split; reflexivity|].
  destruct (IH t1 t2 Hr) as [He' Hr'].
  destruct (load_files simplejson_load t1 fs1), (load_files simplejson_load t2 fs2).
  simpl in *; subst; split; [reflexivity|exact Hr'].
Qed.

Lemma extract_rel s1 s2 : state_rel s1 s2 -> extract s1 = extract s2.
Proof.
  intros Hs; unfold extract; rewrite (dict_rel_keys _ _ _ Hs).
  apply fold_res_ext; intros bp t; unfold extract_type.
  pose proof (dict_rel_default _ [] t s1 s2 (Forall2_nil _) Hs) as Hi.
  rewrite (dict_rel_keys _ _ _ Hi).
  apply fold_res_ext; intros bp' n; unfold extract_biome.
  pose proof (dict_rel_get _ n _ _ Hi) as Ho.
  destruct (dict_get n (dict_default [] t s1)) as [b1|],
           (dict_get n (dict_default [] t s2)) as [b2|];
    simpl in Ho; try contradiction; simpl; [|reflexivity].
  destruct (getitem_same_but_enabled _ _ Ho) as [Hk _].
  rewrite (Hk "biomeColors"%string) by discriminate; reflexivity.
Qed.

(** *** Extraction *)

Definition mk_patch (n s : string) : patch :=
  {| biomeName := n; biomeColor := colorCode s |}.

(** The patches of biome [n]: its colour strings, normalised, in order. *)
Definition biome_block (d : list (string * json)) (ns : list string)
    (css : list (list string)) : Prop :=
  Forall2 (fun n cs => exists b cv, dict_get n d = Some b /\
                                    getitem b "biomeColors" = inr cv /\
                                    iter_colors cv = inr (map JStr cs)) ns css.

Definition block_patches (ns : list string) (css : list (list string)) : list patch :=
  concat (map (fun ncs => map (mk_patch (fst ncs)) (snd ncs)) (combine ns css)).

Lemma extract_colors t n cs bp bp' :
  fold_res (fun bp c => code <- colorCode_json c ;;
                        inr (append_patch t {| biomeName := n; biomeColor := code |} bp))
           cs bp = inr bp' ->
  exists ss, cs = map JStr ss /\
    (forall t', t' <> t -> dict_get t' bp' = dict_get t' bp) /\
    dict_default [] t bp' = dict_default [] t bp ++ map (mk_patch n) ss /\
    (NoDup (dict_keys bp) -> NoDup (dict_keys bp')).
Proof.
  revert bp; induction cs as [|c cs IH]; intros bp H; simpl in H.
  - inversion H; subst; exists []; rewrite app_nil_r; repeat split; auto.
  - inv_bind H; inv_bind Ha.
    destruct c as [| | |sc| |]; simpl in Ha0; try discriminate.
    inversion Ha0; subst; inversion Ha; subst; clear Ha Ha0.
    destruct (IH _ H) as [ss [-> [Ho [Hd Hn]]]].
    exists (sc :: ss); split; [reflexivity|]; split; [|split].
    + intros t' Hne; rewrite (Ho t' Hne); unfold append_patch.
      apply dict_get_set_neq; congruence.
    + rewrite Hd; unfold append_patch at 1; unfold dict_default at 1.
      rewrite dict_get_set_eq; simpl; rewrite <- app_assoc; reflexivity.
    + intros Hnd; apply Hn, dict_set_NoDup, Hnd.
Qed.

Lemma extract_biome_spec st t bp n bp' :
  extract_biome st t bp n = inr bp' ->
  (forall t', t' <> t -> dict_get t' bp' = dict_get t' bp) /\
  (NoDup (dict_keys bp) -> NoDup (dict_keys bp')) /\
  exists cs, biome_block (dict_default [] t st) [n] [cs] /\
             dict_default [] t bp' = dict_default [] t bp ++ map (mk_patch n) cs.
Proof.
  unfold extract_biome; intros H.
  inv_bind H; inv_bind H; inv_bind H.
  destruct (dict_get n (dict_default [] t st)) as [b|] eqn:Eb; [|discriminate].
  inversion Ha; subst; clear Ha.
  destruct (extract_colors _ _ _ _ _ H) as [ss [-> [Ho [Hd Hn]]]].
  split; [exact Ho|]; split; [exact Hn|].
  exists ss; split; [|exact Hd].
  constructor; [|constructor]; eauto.
Qed.

Lemma extract_names_spec st t ns bp bp' :
  fold_res (extract_biome st t) ns bp = inr bp' ->
  (forall t', t' <> t -> dict_get t' bp' = dict_get t' bp) /\
  (NoDup (dict_keys bp) -> NoDup (dict_keys bp')) /\
  exists css, biome_block (dict_default [] t st) ns css /\
              dict_default [] t bp' = dict_default [] t bp ++ block_patches ns css.
Proof.
  revert bp; induction ns as [|n ns IH]; intros bp H; simpl in H.
  - inversion H; subst; split; [auto|split; [auto|]].
    exists []; split; [constructor|]; unfold block_patches; simpl.
    rewrite app_nil_r; reflexivity.
  - inv_bind H.
    destruct (extract_biome_spec _ _ _ _ _ Ha) as [Ho1 [Hn1 [cs [Hb1 Hd1]]]].
    destruct (IH _ H) as [Ho2 [Hn2 [css [Hb2 Hd2]]]].
    split; [intros t' Hne; rewrite Ho2, Ho1; auto|split; [auto|]].
    exists (cs :: css); split.
    + inversion Hb1; subst; constructor; assumption.
    + rewrite Hd2, Hd1; unfold block_patches; simpl; rewrite app_assoc; reflexivity.
Qed.

Lemma extract_types_spec st ts bp0 bp :
  NoDup ts ->
  fold_res (extract_type st) ts bp0 = inr bp ->
  (NoDup (dict_keys bp0) -> NoDup (dict_keys bp)) /\
  (forall t, ~ In t ts -> dict_get t bp = dict_get t bp0) /\
  (forall t, In t ts ->
     exists css,
       biome_block (dict_default [] t st) (sorted (dict_keys (dict_default [] t st))) css /\
       dict_default [] t bp =
       dict_default [] t bp0 ++ block_patches (sorted (dict_keys (dict_default [] t st))) css).
Proof.
  intros Hnd; revert bp0; induction Hnd as [|t0 ts Hnin Hnd IH]; intros bp0 H; simpl in H.
  - inversion H; subst; split; [auto|split; [auto|intros t []]].
  - inv_bind H; unfold extract_type in Ha.
    destruct (extract_names_spec _ _ _ _ _ Ha) as [Ho1 [Hn1 [css [Hb1 Hd1]]]].
    destruct (IH _ H) as [Hn2 [Ho2 Hin2]].
    split; [auto|split].
    + intros t Ht; rewrite Ho2 by (intros Hi; apply Ht; right; exact Hi).
      apply Ho1; intros ->; apply Ht; left; reflexivity.
    + intros t [<-|Ht].
      * exists css; split; [exact Hb1|].
        unfold dict_default at 1; rewrite (Ho2 t0 Hnin); exact Hd1.
      * destruct (Hin2 t Ht) as [css' [Hb' Hd']].
        exists css'; split; [exact Hb'|]; rewrite Hd'.
        f_equal; unfold dict_default; rewrite Ho1; [reflexivity|].
        intros ->; contradiction.
Qed.

(** The shape of [biomePatches] after extraction from a loaded
    [biomesByType]. *)
Lemma extract_structure st bp :
  keys_distinct st ->
  extract st = inr bp ->
  NoDup (dict_keys bp) /\
  forall t ps, dict_get t bp = Some ps ->
    exists d css,
      dict_get t st = Some d /\ NoDup (dict_keys d) /\
      biome_block d (sorted (dict_keys d)) css /\
      ps = block_patches (sorted (dict_keys d)) css.
Proof.
  intros [Hnd Hin] H; unfold extract in H.
  assert (Hts : NoDup (sorted (dict_keys st))).
  { eapply Permutation_NoDup; [symmetry; apply sorted_perm|exact Hnd]. }
  destruct (extract_types_spec _ _ _ _ Hts H) as [Hn [Ho Hi]].
  split; [apply Hn; constructor|].
  intros t ps Hps.
  destruct (In_dec string_dec t (sorted (dict_keys st))) as [Ht|Ht];
    [|rewrite (Ho t Ht) in Hps; discriminate].
  destruct (Hi t Ht) as [css [Hb Hd]].
  assert (Hk : In t (dict_keys st))
    by (eapply Permutation_in; [apply sorted_perm|exact Ht]).
  apply dict_get_In_keys in Hk.
  destruct (dict_get t st) as [d|] eqn:Ed; [|congruence].
  exists d, css; unfold dict_default in Hb, Hd; rewrite Ed in Hb, Hd.
  split; [reflexivity|]; split;
    [exact (dict_get_Forall (fun d => NoDup (dict_keys d)) _ _ _ Hin Ed)|].
  split; [exact Hb|].
  unfold dict_default in Hd; rewrite Hps in Hd; exact Hd.
Qed.

(** *** Planning *)

Lemma fold_max_spec (l : list Z) (x : Z) :
  x <= fold_left Z.max l x /\ Forall (fun y => y <= fold_left Z.max l x) l /\
  (fold_left Z.max l x = x \/ In (fold_left Z.max l x) l).
Proof.
  revert x; induction l as [|y l IH]; intros x; simpl; [split; [lia|auto]|].
  destruct (IH (Z.max x y)) as [H1 [H2 H3]].
  split; [lia|split; [constructor; [lia|exact H2]|]].
  destruct H3 as [H3|H3]; [|auto].
  rewrite H3; destruct (Z.max_spec x y) as [[_ ->]|[_ ->]]; auto.
Qed.

Lemma py_max_spec l m :
  py_max l = inr m -> l <> [] /\ Forall (fun y => y <= m) l /\ In m l.
Proof.
  destruct l as [|x l]; simpl; intros H; [discriminate|inversion H; subst].
  destruct (fold_max_spec l x) as [H1 [H2 [H3|H3]]];
    (split; [discriminate|split; [constructor; auto|]]); [left; auto|right; auto].
Qed.

Lemma cbrt_up_from_spec n fuel k :
  0 <= k -> (k - 1) ^ 3 < n -> n <= (k + Z.of_nat fuel - 1) ^ 3 ->
  let c := cbrt_up_from k fuel n in 0 <= c /\ (c - 1) ^ 3 < n /\ n <= c ^ 3.
Proof.
  revert k; induction fuel as [|fuel IH]; intros k Hk Hlo Hhi; cbv zeta;
    cbn [cbrt_up_from].
  - exfalso; replace (k + Z.of_nat 0 - 1) with (k - 1) in Hhi by lia; lia.
  - destruct (Z.leb_spec n (k ^ 3)) as [Hn|Hn]; [split; [|split]; assumption|].
    apply IH; [lia| |].
    + replace (k + 1 - 1) with k by lia; exact Hn.
    + replace (k + 1 + Z.of_nat fuel - 1) with (k + Z.of_nat (S fuel) - 1) by lia;
        exact Hhi.
Qed.

(** [ceil_cbrt n] is the ceiling of the cube root of [n]. *)
Lemma ceil_cbrt_spec n :
  0 <= n -> 0 <= ceil_cbrt n /\ (ceil_cbrt n - 1) ^ 3 < n /\ n <= ceil_cbrt n ^ 3.
Proof.
  intros Hn; apply cbrt_up_from_spec; [lia|simpl; lia|].
  rewrite Nat2Z.inj_succ, Z2Nat.id by lia.
  replace (0 + Z.succ n - 1) with n by lia; nia.
Qed.

Lemma ceil_cbrt_unique n k :
  0 <= k -> (k - 1) ^ 3 < n <= k ^ 3 -> ceil_cbrt n = k.
Proof.
  intros Hk [Hlo Hhi].
  assert (Hn : 0 <= n \/ n < 0) by lia.
  destruct Hn as [Hn|Hn]; [|exfalso; nia].
  destruct (ceil_cbrt_spec n Hn) as [H0 [H1 H2]].
  set (c := ceil_cbrt n) in *.
  destruct (Z.lt_trichotomy c k) as [Hlt|[Heq|Hgt]]; [|exact Heq|]; exfalso.
  - assert (c ^ 3 <= (k - 1) ^ 3) by (apply Z.pow_le_mono_l; lia); lia.
  - assert (k ^ 3 <= (c - 1) ^ 3) by (apply Z.pow_le_mono_l; lia); lia.
Qed.

Definition sum_Z (l : list Z) : Z := fold_right Z.add 0 l.

Lemma wrap_rows_spec w (bp : biome_patches) btr0 r0 btr r :
  fold_res (fun acc tp =>
              let '(btr, rows) := acc in
              let '(biomeType, patches) := tp in
              wrappedRows <- py_floordiv (w - 1 + Z.of_nat (List.length patches)) w ;;
              inr (dict_set biomeType wrappedRows btr, rows + wrappedRows))
           bp (btr0, r0) = inr (btr, r) ->
  (bp <> [] -> w <> 0) /\
  r = r0 + sum_Z (map (fun tp => (w - 1 + Z.of_nat (List.length (snd tp))) / w) bp).
Proof.
  revert btr0 r0; induction bp as [|[t ps] bp IH]; intros btr0 r0 H; simpl in H.
  - inversion H; subst; split; [congruence|simpl; lia].
  - inv_bind H; inv_bind Ha; unfold py_floordiv in Ha0.
    destruct (Z.eqb_spec w 0) as [Hw|Hw]; [discriminate|].
    inversion Ha0; inversion Ha; subst; clear Ha Ha0.
    destruct (IH _ _ H) as [_ Hr].
    split; [auto|rewrite Hr; simpl; lia].
Qed.

Lemma plan_spec bp L :
  plan getsize bp = inr L ->
  bp <> [] /\
  1 <= maxPatches L /\
  Forall (fun tp => Z.of_nat (List.length (snd tp)) <= maxPatches L) bp /\
  wrapColumns L = 3 * ceil_cbrt (maxPatches L) /\
  columns L = Z.min (maxPatches L) (wrapColumns L) /\
  rows L = sum_Z (map (fun tp => (wrapColumns L - 1 + Z.of_nat (List.length (snd tp)))
                                 / wrapColumns L) bp) /\
  imageWidth L = 1 + firstColumnWidth L + patchWidth L * columns L /\
  imageHeight L = 1 + patchHeight L * rows L.
Proof.
  unfold plan; intros H.
  inv_bind H; inv_bind H; inv_bind H; inversion H; subst; clear H; simpl.
  apply py_max_spec in Ha; destruct Ha as [Hne [Hle Hin]].
  destruct a0 as [btr rows]; unfold wrap_rows in Ha0.
  apply wrap_rows_spec in Ha0; destruct Ha0 as [Hw Hr]; simpl.
  assert (Hbp : bp <> []) by (destruct bp; simpl in Hne; congruence).
  assert (H0 : 0 <= a).
  { apply in_map_iff in Hin; destruct Hin as [tp [<- _]]; lia. }
  assert (H1 : a <> 0).
  { intros ->; apply (Hw Hbp); reflexivity. }
  rewrite Forall_map in Hle.
  repeat split; auto; lia.
Qed.

(** With [columns = min(maxPatches, wrapColumns)], ceiling division by
    [wrapColumns] and by [columns] agree on every count up to
    [maxPatches]. *)
Lemma ceil_rows_eq len mp w :
  0 <= len <= mp -> 1 <= mp -> 1 <= w ->
  (w - 1 + len) / w = (len + Z.min mp w - 1) / Z.min mp w.
Proof.
  intros Hl Hmp Hw.
  destruct (Z.min_spec mp w) as [[Hlt ->]|[Hge ->]]; [|f_equal; lia].
  destruct (Z.eq_dec len 0) as [->|Hn].
  - rewrite !Z.div_small by lia; reflexivity.
  - rewrite <- (Z.div_unique_pos (w - 1 + len) w 1 (len - 1)) by lia.
    rewrite <- (Z.div_unique_pos (len + mp - 1) mp 1 (len - 1)) by lia.
    reflexivity.
Qed.

Lemma Forall2_combine_In {A B} (P : A -> B -> Prop) xs ys x y :
  Forall2 P xs ys -> In (x, y) (combine xs ys) -> P x y.
Proof.
  induction 1 as [|x' y' xs ys Hp Hr IH]; simpl; [intros []|].
  intros [Heq|Hi]; [inversion Heq; subst; exact Hp|auto].
Qed.

(** [colorCode] only adds a missing ['#']: the result has the pattern
    [#[0-9A-Fa-f]{6}] exactly when the input is six hex digits, with or
    without its ['#']. *)
Lemma hex_pattern_colorCode s :
  hex_pattern (colorCode s) = hex_pattern s || hex_pattern ("#" ++ s)%string.
Proof.
  destruct s as [|c t]; [reflexivity|].
  assert (Hp : startswith (String c t) "#" = Ascii.eqb c "#").
  { cbn [startswith]; destruct t; rewrite andb_true_r; apply Ascii.eqb_sym. }
  unfold colorCode; rewrite Hp.
  destruct (Ascii.eqb_spec c "#") as [->|Hc].
  - simpl hex_pattern at 3; rewrite andb_false_r, orb_false_r; reflexivity.
  - simpl hex_pattern at 2; apply Ascii.eqb_neq in Hc; rewrite Hc; reflexivity.
Qed.

(** *** The claims about a run *)

(** C10: the values of [enabled] do not influence the run: two inputs
    whose files have the same names and parse to records that differ at
    most in their [enabled] values give the same diagnostics and the same
    outcome (the same image, or the same exception).  A record without an
    [enabled] member raises [KeyError('enabled')] that ends the run: the
    files after it are never read and no image is produced. *)
Theorem enabled_value_ignored :
  (forall fs1 fs2, Forall2 file_rel fs1 fs2 ->
     run simplejson_load getsize textsize getrgb fs1 =
     run simplejson_load getsize textsize getrgb fs2) /\
  (forall pre f rest errs st kvs,
     load_files simplejson_load [] pre = (errs, inr st) ->
     simplejson_load (fileText f) = Parsed (JObj kvs) ->
     dict_get "enabled" (rev kvs) = None ->
     run simplejson_load getsize textsize getrgb (pre ++ f :: rest) =
     (errs, inl (KeyError "enabled"))).
Proof.
  split.
  - intros fs1 fs2 Hf; unfold run.
    destruct (load_files_rel fs1 fs2 [] [] Hf (Forall2_nil _)) as [He Hr].
    destruct (load_files simplejson_load [] fs1) as [e1 [x1|t1]],
             (load_files simplejson_load [] fs2) as [e2 [x2|t2]];
      simpl in *; subst; try contradiction; [reflexivity|].
    rewrite (extract_rel _ _ Hr); reflexivity.
  - intros pre f rest errs st kvs Hpre Hf Hen.
    rewrite <- (app_nil_r errs).
    apply (run_abort_at _ _ _ _ st); [exact Hpre|].
    unfold load_file; rewrite Hf; simpl; rewrite Hen; reflexivity.
Qed.

(** C6: a file that simplejson cannot parse adds exactly one line to the
    diagnostics, [JSON error: <file>: line <lineno>, column <colno>: <msg>],
    leaves [biomesByType] as it was, and the remaining files are processed
    as if the file were absent. *)
Theorem json_error_reported_and_skipped st f fs lineno colno msg :
  simplejson_load (fileText f) = JSONDecodeError lineno colno msg ->
  let diag := ("JSON error: " ++ fileName f ++ ": line " ++ str lineno ++
               ", column " ++ str colno ++ ": " ++ msg)%string in
  load_files simplejson_load st (f :: fs) =
    (diag :: fst (load_files simplejson_load st fs),
     snd (load_files simplejson_load st fs)) /\
  run simplejson_load getsize textsize getrgb (f :: fs) =
    (diag :: fst (run simplejson_load getsize textsize getrgb fs),
     snd (run simplejson_load getsize textsize getrgb fs)).
Proof.
  intros Hf diag; split.
  - simpl; unfold load_file at 1; rewrite Hf.
    destruct (load_files simplejson_load st fs); reflexivity.
  - unfold run; simpl; unfold load_file at 1; rewrite Hf.
    destruct (load_files simplejson_load [] fs); reflexivity.
Qed.

(** C1 (as the code behaves): a parsed record that has [enabled] but no
    [biomeType] member raises [KeyError('biomeType')]; the exception is
    not caught, so the run ends at that file: the files after it are never
    read and no image is produced. *)
Theorem missing_biomeType_aborts pre f rest errs st kvs :
  load_files simplejson_load [] pre = (errs, inr st) ->
  simplejson_load (fileText f) = Parsed (JObj kvs) ->
  dict_get "enabled" (rev kvs) <> None ->
  dict_get "biomeType" (rev kvs) = None ->
  run simplejson_load getsize textsize getrgb (pre ++ f :: rest) =
  (errs, inl (KeyError "biomeType")).
Proof.
  intros Hpre Hf Hen Hbt.
  rewrite <- (app_nil_r errs).
  apply (run_abort_at _ _ _ _ st); [exact Hpre|].
  unfold load_file; rewrite Hf; simpl.
  destruct (dict_get "enabled" (rev kvs)); [simpl|contradiction].
  rewrite Hbt; reflexivity.
Qed.

(** C2 (as the code behaves): when loading succeeds but no patch is
    extracted (no file, or only records with empty colour lists), the
    script evaluates [max()] over the empty sequence of patch counts and
    stops with an uncaught [ValueError]; the diagnostics are only those
    printed while loading (no "no biomes found" line) and no image is
    produced. *)
Theorem no_patches_max_raises fs errs st :
  load_files simplejson_load [] fs = (errs, inr st) ->
  extract st = inr [] ->
  run simplejson_load getsize textsize getrgb fs =
  (errs, inl (ValueError "max() arg is an empty sequence")).
Proof.
  intros Hl He; unfold run; rewrite Hl; simpl; rewrite He; reflexivity.
Qed.

(** C4: in every plan, [columns = min(maxPatches, 3 * ceil(cbrt(maxPatches)))]
    with [maxPatches >= 1]: for the [k] with [(k-1)^3 < maxPatches <= k^3]
    (the ceiling of the cube root), [wrapColumns = 3k] and
    [columns = min(maxPatches, 3k)].  So [maxPatches = 1] gives
    [wrapColumns = 3], [columns = 1]; [maxPatches = 8] gives [columns = 6];
    [maxPatches = 27] gives [wrapColumns = columns = 9]. *)
Theorem columns_formula bp L :
  plan getsize bp = inr L ->
  1 <= maxPatches L /\
  (forall k, 0 <= k -> (k - 1) ^ 3 < maxPatches L <= k ^ 3 ->
     wrapColumns L = 3 * k /\ columns L = Z.min (maxPatches L) (3 * k)) /\
  (maxPatches L = 1 -> wrapColumns L = 3 /\ columns L = 1) /\
  (maxPatches L = 8 -> wrapColumns L = 6 /\ columns L = 6) /\
  (maxPatches L = 27 -> wrapColumns L = 9 /\ columns L = 9).
Proof.
  intros H; destruct (plan_spec _ _ H) as [_ [Hmp [_ [Hw [Hc _]]]]].
  rewrite Hc, Hw.
  split; [exact Hmp|split; [|split; [|split]]].
  - intros k Hk Hr; rewrite (ceil_cbrt_unique _ _ Hk Hr); split; reflexivity.
  - intros ->; split; reflexivity.
  - intros ->; split; reflexivity.
  - intros ->; split; reflexivity.
Qed.

(** C5: after loading, the biome types (iterated by extraction) and the
    keys of [biomePatches] (iterated by rendering) are visited in strictly
    increasing lexicographic order, each once; and the patch list of each
    biome type is the concatenation, over its biome names in strictly
    increasing lexicographic order, of the normalised colour codes of that
    biome in the order of its [biomeColors] list. *)
Theorem patches_in_sorted_order fs errs st bp :
  load_files simplejson_load [] fs = (errs, inr st) ->
  extract st = inr bp ->
  (Sorted str_lt (sorted (dict_keys st)) /\
   Permutation (sorted (dict_keys st)) (dict_keys st)) /\
  (Sorted str_lt (sorted (dict_keys bp)) /\
   Permutation (sorted (dict_keys bp)) (dict_keys bp)) /\
  forall t ps, dict_get t bp = Some ps ->
    exists d css,
      dict_get t st = Some d /\
      Sorted str_lt (sorted (dict_keys d)) /\
      Permutation (sorted (dict_keys d)) (dict_keys d) /\
      biome_block d (sorted (dict_keys d)) css /\
      ps = block_patches (sorted (dict_keys d)) css.
Proof.
  intros Hl He.
  assert (Hk : keys_distinct st).
  { eapply load_files_keys_distinct; [|exact Hl]; split; constructor. }
  destruct (extract_structure _ _ Hk He) as [Hbp Hs].
  split; [apply sorted_keys_ok, Hk|split; [apply sorted_keys_ok, Hbp|]].
  intros t ps Ht; destruct (Hs t ps Ht) as [d [css [Hd [Hnd [Hb Hps]]]]].
  exists d, css; destruct (sorted_keys_ok _ Hnd) as [Hso Hpe]; auto 6.
Qed.

(** C9 (as the code behaves): every patch colour is [colorCode s] for a
    colour string [s] of the biome's [biomeColors] list; it starts with
    ['#'], and it has the pattern [#[0-9A-Fa-f]{6}] exactly when [s] is six
    hex digits with or without a leading ['#'].  Nothing validates the
    digits. *)
Theorem patch_color_is_normalised_source fs errs st bp t ps p :
  load_files simplejson_load [] fs = (errs, inr st) ->
  extract st = inr bp ->
  dict_get t bp = Some ps -> In p ps ->
  exists d b cv cs s,
    dict_get t st = Some d /\ dict_get (biomeName p) d = Some b /\
    getitem b "biomeColors" = inr cv /\ iter_colors cv = inr (map JStr cs) /\
    In s cs /\
    biomeColor p = colorCode s /\
    startswith (biomeColor p) "#" = true /\
    hex_pattern (biomeColor p) = hex_pattern s || hex_pattern ("#" ++ s)%string.
Proof.
  intros Hl He Ht Hp.
  assert (Hk : keys_distinct st).
  { eapply load_files_keys_distinct; [|exact Hl]; split; constructor. }
  destruct (extract_structure _ _ Hk He) as [_ Hs].
  destruct (Hs t ps Ht) as [d [css [Hd [_ [Hb ->]]]]].
  unfold block_patches in Hp; apply in_concat in Hp.
  destruct Hp as [pl [Hpl Hp]]; apply in_map_iff in Hpl.
  destruct Hpl as [[n cs] [<- Hin]]; simpl in Hp.
  apply in_map_iff in Hp; destruct Hp as [s [<- Hs']].
  destruct (Forall2_combine_In _ _ _ _ _ Hb Hin) as [b [cv [Hnb [Hcv Hit]]]].
  exists d, b, cv, cs, s; simpl.
  repeat (split; [assumption|]).
  split; [reflexivity|split; [|apply hex_pattern_colorCode]].
  unfold colorCode; destruct (startswith s "#") eqn:E; [exact E|].
  destruct s; reflexivity.
Qed.

End Properties.

(** ** More of the script *)

Section Render.

Variable getsize : string -> Z * Z.
Variable textsize : string -> Z * Z.
Variable getrgb : string -> option (Z * Z * Z).

Lemma rect_fills_app o1 o2 : rect_fills (o1 ++ o2) = rect_fills o1 ++ rect_fills o2.
Proof. unfold rect_fills; apply flat_map_app. Qed.

Lemma draw_lines_texts x0 pw gap fill y lines :
  rect_fills (draw_lines textsize x0 pw gap fill y lines) = [] /\
  Forall (fun op => exists x y t, op = DrawText x y t fill) (draw_lines textsize x0 pw gap fill y lines).
Proof.
  revert y; induction lines as [|l lines IH]; intros y; simpl; [auto|].
  destruct (textsize l) as [w h]; simpl.
  destruct (IH (y + Qz h + gap)%Q) as [H1 H2]; split; [exact H1|].
  constructor; [eauto|exact H2].
Qed.

Lemma draw_patch_spec L row c p ops :
  draw_patch textsize getrgb L row c p = inr ops ->
  exists rgb texts, getrgb (biomeColor p) = Some rgb /\
    ops = DrawRect (firstColumnWidth L + c * patchWidth L) (row * patchHeight L)
                   (firstColumnWidth L + (c + 1) * patchWidth L) ((row + 1) * patchHeight L)
                   (CRgb rgb) (CName "#000000") :: texts /\
    rect_fills texts = [] /\
    Forall (fun op => exists x y t, op = DrawText x y t (contrastingColor rgb)) texts.
Proof.
  unfold draw_patch; intros H; inv_bind H.
  destruct (getrgb (biomeColor p)) as [rgb|] eqn:E; [|discriminate].
  injection Ha as <-.
  destruct rgb as [[r g] b]; injection H as <-.
  exists (r, g, b); eexists; split; [reflexivity|split; [reflexivity|]].
  repeat match goal with |- context [let '(_, _) := ?e in _] => destruct e end.
  split; [reflexivity|repeat constructor; eauto].
Qed.

Lemma draw_patch_ok L row c p rgb :
  getrgb (biomeColor p) = Some rgb -> exists ops, draw_patch textsize getrgb L row c p = inr ops.
Proof.
  unfold draw_patch; intros E; rewrite E; simpl; destruct rgb as [[r g] b]; eauto.
Qed.

Lemma skipn_nth_cons {A} (l : list A) k d :
  (k < length l)%nat -> skipn k l = nth k l d :: skipn (S k) l.
Proof.
  revert k; induction l as [|x l IH]; intros k Hk; simpl in *; [lia|].
  destruct k; [reflexivity|]; apply IH; lia.
Qed.

Lemma firstn_skipn_split {A} (l : list A) k x y :
  firstn x (skipn k l) ++ firstn y (skipn (k + x) l) = firstn (x + y) (skipn k l).
Proof.
  replace (skipn (k + x) l) with (skipn x (skipn k l))
    by (rewrite skipn_skipn; f_equal; lia).
  generalize (skipn k l); clear; induction x as [|x IH]; intros l; [reflexivity|].
  destruct l as [|a l]; simpl; [destruct y; reflexivity|f_equal; apply IH].
Qed.

Lemma draw_cells_spec L ps row b Cn a m ops :
  columns L = Z.of_nat Cn ->
  draw_cells textsize getrgb L ps row (Z.of_nat b) (map Z.of_nat (seq a m)) = inr ops ->
  Forall2 (accepted getrgb) (firstn m (skipn (b * Cn + a) ps)) (rect_fills ops) /\
  (forall R, 0 <= firstColumnWidth L -> 0 <= patchWidth L -> 0 <= patchHeight L ->
     0 <= row < R -> (a + m <= Cn)%nat -> Forall (inside_cell L R) ops).
Proof.
  intros HC; revert a ops; induction m as [|m IH]; intros a ops H; simpl in H.
  - inversion H; subst; simpl; split; [constructor|auto].
  - rewrite HC in H.
    replace (Z.of_nat b * Z.of_nat Cn + Z.of_nat a) with (Z.of_nat (b * Cn + a)) in H by lia.
    destruct (Z.leb_spec (Z.of_nat (length ps)) (Z.of_nat (b * Cn + a))) as [Hl|Hl].
    + inversion H; subst; rewrite skipn_all2 by lia; simpl; split; [constructor|auto].
    + inv_bind H; inv_bind H; inversion H; subst; clear H.
      rewrite Nat2Z.id in Ha.
      destruct (draw_patch_spec _ _ _ _ _ Ha) as [rgb [texts [Hrgb [-> [Ht Hf]]]]].
      replace (S a) with (a + 1)%nat in Ha0 by lia.
      destruct (IH _ _ Ha0) as [IH1 IH2].
      rewrite (skipn_nth_cons ps (b * Cn + a) {| biomeName := ""; biomeColor := "" |}) by lia.
      replace (S (b * Cn + a)) with (b * Cn + (a + 1))%nat by lia.
      split.
      * rewrite rect_fills_app; simpl; rewrite Ht; simpl.
        constructor; [exact Hrgb|exact IH1].
      * intros R Hf0 Hp0 Hh0 Hr Ham.
        apply Forall_app; split; [|apply IH2; auto; lia].
        constructor.
        -- unfold inside_cell, rect_inside; rewrite HC.
           assert (0 <= Z.of_nat a) by lia.
           assert (Z.of_nat a + 1 <= Z.of_nat Cn) by lia.
           split; [split; nia|split; [nia|split; [split; nia|nia]]].
        -- eapply Forall_impl; [|exact Hf].
           intros op [x [y [t ->]]]; exact I.
Qed.


Lemma rect_fills_label a b c d e q r t f :
  rect_fills [DrawRect a b c d (CName e) q; DrawText r r t f] = [].
Proof. reflexivity. Qed.

Lemma draw_rows_spec L t ps Cn b n row ops row' :
  columns L = Z.of_nat Cn ->
  draw_rows getsize textsize getrgb L t ps row (map Z.of_nat (seq b n)) = inr (ops, row') ->
  row' = row + Z.of_nat n /\
  Forall2 (accepted getrgb) (firstn (n * Cn) (skipn (b * Cn) ps)) (rect_fills ops) /\
  (forall R, 0 <= firstColumnWidth L -> 0 <= patchWidth L -> 0 <= patchHeight L ->
     0 <= row -> row + Z.of_nat n <= R -> Forall (inside_cell L R) ops).
Proof.
  intros HC; revert b row ops row'; induction n as [|n IH]; intros b row ops row' H;
    simpl in H.
  - injection H as <- <-; split; [lia|split; [constructor|auto]].
  - inv_bind H; inv_bind H; injection H as <- <-.
    destruct a0 as [ops' row'']; simpl.
    unfold range in Ha; rewrite HC, Nat2Z.id in Ha.
    destruct (draw_cells_spec _ _ _ _ _ _ _ _ HC Ha) as [Hc1 Hc2].
    destruct (IH _ _ _ _ Ha0) as [Hr1 [Hr2 Hr3]].
    split; [lia|split].
    + rewrite !rect_fills_app; simpl rect_fills at 1.
      rewrite Nat.add_0_r in Hc1.
      replace (S n * Cn)%nat with (Cn + n * Cn)%nat by lia.
      rewrite <- firstn_skipn_split.
      replace (b * Cn + Cn)%nat with (S b * Cn)%nat by lia.
      apply Forall2_app; assumption.
    + intros R Hf Hp Hh Hr0 HR.
      constructor; [|constructor; [exact I|apply Forall_app; split]].
      * unfold inside_cell, rect_inside.
        assert (0 <= patchWidth L * columns L) by (rewrite HC; nia).
        split; [lia|split; [lia|split; [split; nia|nia]]].
      * apply Hc2; auto; lia.
      * apply Hr3; auto; lia.
Qed.

Lemma sum_Z_nonneg {A} (f : A -> Z) (l : list A) :
  (forall x, In x l -> 0 <= f x) -> 0 <= sum_Z (map f l).
Proof.
  unfold sum_Z; induction l as [|x l IH]; intros H; simpl; [lia|].
  assert (0 <= f x) by (apply H; left; reflexivity).
  assert (0 <= fold_right Z.add 0 (map f l)) by (apply IH; intros y Hy; apply H; right; exact Hy).
  lia.
Qed.

Lemma render_fold_spec bp L Cn ts acc acc' :
  columns L = Z.of_nat Cn ->
  (forall t, In t ts -> 0 <= rows_of L t /\
     Z.of_nat (length (dict_default [] t bp)) <= rows_of L t * Z.of_nat Cn) ->
  fold_res (draw_type getsize textsize getrgb bp L) ts acc = inr acc' ->
  snd acc' = snd acc + sum_Z (map (rows_of L) ts) /\
  (exists fills, rect_fills (fst acc') = rect_fills (fst acc) ++ fills /\
     Forall2 (accepted getrgb) (concat (map (fun t => dict_default [] t bp) ts)) fills) /\
  (forall R, 0 <= firstColumnWidth L -> 0 <= patchWidth L -> 0 <= patchHeight L ->
     0 <= snd acc -> snd acc + sum_Z (map (rows_of L) ts) <= R ->
     Forall (inside_cell L R) (fst acc) -> Forall (inside_cell L R) (fst acc')).
Proof.
  intros HC; revert acc; induction ts as [|t ts IH]; intros acc Hts H; simpl in H.
  - injection H as <-; simpl; split; [lia|split; [exists []; rewrite app_nil_r; split; constructor|auto]].
  - inv_bind H; unfold draw_type in Ha.
    inv_bind Ha; inv_bind Ha; injection Ha as <-.
    destruct (Hts t (or_introl eq_refl)) as [Hn0 Hlen].
    unfold rows_of in Hn0, Hlen.
    destruct (dict_get t (biomeTypeRows L)) as [n|] eqn:En; [|discriminate].
    injection Ha0 as <-.
    destruct a1 as [ops1 row1]; unfold range in Ha1.
    destruct (draw_rows_spec _ _ _ _ 0 _ _ _ _ HC Ha1) as [Hr1 [Hr2 Hr3]].
    destruct (IH _ (fun t' Ht' => Hts t' (or_intror Ht')) H) as [Hf1 [[fills [Hf2 Hf3]] Hf4]].
    simpl in Hf1, Hf2, Hf4, Hr1.
    rewrite Z2Nat.id in Hr1 by lia.
    assert (Hrow : rows_of L t = n) by (unfold rows_of; rewrite En; reflexivity).
    simpl; rewrite Hrow.
    split; [lia|split].
    + assert (Hle : (length (skipn 0 (dict_default [] t bp)) <= Z.to_nat n * Cn)%nat).
      { rewrite skipn_0; apply Nat2Z.inj_le; rewrite Nat2Z.inj_mul, Z2Nat.id by lia.
        exact Hlen. }
      rewrite firstn_all2 in Hr2 by exact Hle.
      rewrite skipn_0 in Hr2.
      exists (rect_fills ops1 ++ fills); split.
      * rewrite Hf2, rect_fills_app, app_assoc; reflexivity.
      * apply Forall2_app; assumption.
    + intros R Hf Hp Hh H0 HR Hin.
      assert (0 <= sum_Z (map (rows_of L) ts))
        by (apply sum_Z_nonneg; intros x Hx; apply (Hts x (or_intror Hx))).
      apply Hf4; auto; [lia|lia|].
      apply Forall_app; split; [exact Hin|apply Hr3; auto; rewrite Z2Nat.id by lia; lia].
Qed.


Lemma dict_get_In {V} (k : string) (v : V) d : dict_get k d = Some v -> In (k, v) d.
Proof.
  induction d as [|[k' v'] d IH]; simpl; [discriminate|].
  destruct (String.eqb_spec k k') as [->|_]; [intros [= ->]; left; reflexivity|].
  intros H; right; auto.
Qed.

Lemma wrap_rows_btr w (bp : biome_patches) btr0 r0 btr r :
  fold_res (fun acc tp =>
              let '(btr, rows) := acc in
              let '(biomeType, patches) := tp in
              wrappedRows <- py_floordiv (w - 1 + Z.of_nat (List.length patches)) w ;;
              inr (dict_set biomeType wrappedRows btr, rows + wrappedRows))
           bp (btr0, r0) = inr (btr, r) ->
  (forall t, ~ In t (dict_keys bp) -> dict_get t btr = dict_get t btr0) /\
  (NoDup (dict_keys bp) -> forall t ps, In (t, ps) bp ->
     dict_get t btr = Some ((w - 1 + Z.of_nat (List.length ps)) / w)).
Proof.
  revert btr0 r0; induction bp as [|[t0 ps0] bp IH]; intros btr0 r0 H; simpl in H.
  - injection H as <- <-; split; [auto|intros _ t ps []].
  - inv_bind H; inv_bind Ha; unfold py_floordiv in Ha0.
    destruct (Z.eqb_spec w 0) as [Hw|Hw]; [discriminate|].
    injection Ha0 as <-; injection Ha as <-.
    destruct (IH _ _ H) as [Ho Hi]; split.
    + intros t Ht; simpl in Ht.
      rewrite Ho by tauto; apply dict_get_set_neq; intros ->; tauto.
    + intros Hnd t ps Hin; inversion Hnd as [|? ? Hn0 Hnd']; subst.
      destruct Hin as [[= <- <-]|Hin]; [|apply Hi; assumption].
      rewrite (Ho _ Hn0); apply dict_get_set_eq.
Qed.

Lemma plan_rows bp L :
  plan getsize bp = inr L -> NoDup (dict_keys bp) ->
  forall t ps, In (t, ps) bp ->
    dict_get t (biomeTypeRows L) =
    Some ((wrapColumns L - 1 + Z.of_nat (List.length ps)) / wrapColumns L).
Proof.
  unfold plan; intros H Hnd.
  inv_bind H; inv_bind H; inv_bind H; injection H as <-; simpl.
  destruct a0 as [btr r]; unfold wrap_rows in Ha0.
  apply (proj2 (wrap_rows_btr _ _ _ _ _ _ Ha0) Hnd).
Qed.

Lemma patch_size_fold pad ps w0 h0 w h :
  fold_left (patch_size_step getsize pad) ps (w0, h0) = (w, h) ->
  w0 <= w /\ h0 <= h /\
  Forall (fun p => fst (getsize (biomeName p)) + 2 * pad <= w /\
                   7 * snd (getsize (biomeName p)) + 2 * pad <= h) ps /\
  (w = w0 \/ exists p, In p ps /\ w = fst (getsize (biomeName p)) + 2 * pad) /\
  (h = h0 \/ exists p, In p ps /\ h = 7 * snd (getsize (biomeName p)) + 2 * pad).
Proof.
  revert w0 h0; induction ps as [|p ps IH]; intros w0 h0 H; cbn [fold_left] in H.
  - injection H as <- <-; split; [lia|split; [lia|split; [constructor|auto]]].
  - cbn [patch_size_step] in H.
    destruct (IH _ _ H) as [H1 [H2 [H3 [H4 H5]]]].
    split; [lia|split; [lia|split; [constructor; [lia|exact H3]|split]]].
    + destruct H4 as [H4|[q [Hq Hw]]]; [|right; exists q; split; [right; exact Hq|exact Hw]].
      destruct (Z.max_spec (fst (getsize (biomeName p)) + 2 * pad) w0) as [[_ E]|[_ E]];
        rewrite E in H4; [left; lia|right; exists p; split; [left; reflexivity|exact H4]].
    + destruct H5 as [H5|[q [Hq Hh]]]; [|right; exists q; split; [right; exact Hq|exact Hh]].
      destruct (Z.max_spec (7 * snd (getsize (biomeName p)) + 2 * pad) h0) as [[_ E]|[_ E]];
        rewrite E in H5; [left; lia|right; exists p; split; [left; reflexivity|exact H5]].
Qed.

Lemma plan_sizes bp L :
  plan getsize bp = inr L ->
  patchPadding L = fst (getsize "   ") /\
  (exists widest, firstColumnWidth L = 2 * patchPadding L + widest /\
     In widest (map (fun tp => fst (getsize (fst tp))) bp) /\
     Forall (fun tp => fst (getsize (fst tp)) <= widest) bp) /\
  (patchWidth L, patchHeight L) =
    fold_left (patch_size_step getsize (patchPadding L)) (concat (map snd bp)) (0, 0).
Proof.
  unfold plan; intros H.
  inv_bind H; inv_bind H; inv_bind H; injection H as <-; simpl.
  split; [reflexivity|split; [|symmetry; apply surjective_pairing]].
  apply py_max_spec in Ha1; destruct Ha1 as [_ [Hle Hin]].
  exists a1; split; [reflexivity|split; [exact Hin|]].
  rewrite Forall_map in Hle; exact Hle.
Qed.

Lemma sum_Z_perm l1 l2 : Permutation l1 l2 -> sum_Z l1 = sum_Z l2.
Proof.
  unfold sum_Z; induction 1; simpl; lia.
Qed.

Lemma map_keys_default {B} (g : list patch -> B) (bp : biome_patches) :
  NoDup (dict_keys bp) ->
  map (fun t => g (dict_default [] t bp)) (dict_keys bp) = map (fun tp => g (snd tp)) bp.
Proof.
  intros Hnd; unfold dict_keys; rewrite map_map; apply map_ext_in.
  intros [t ps] Hin; simpl; f_equal.
  induction bp as [|[t' ps'] bp IH]; [destruct Hin|].
  inversion Hnd as [|? ? Hn Hnd']; subst.
  unfold dict_default; simpl.
  destruct Hin as [[= <- <-]|Hin]; [rewrite String.eqb_refl; reflexivity|].
  destruct (String.eqb_spec t t') as [->|_]; [|apply IH; assumption].
  exfalso; apply Hn; apply (in_map fst) in Hin; exact Hin.
Qed.

Lemma plan_dims bp L :
  plan getsize bp = inr L -> (forall s, 0 <= fst (getsize s) /\ 0 <= snd (getsize s)) ->
  0 <= firstColumnWidth L /\ 0 <= patchWidth L /\ 0 <= patchHeight L.
Proof.
  intros H Hnn.
  destruct (plan_sizes _ _ H) as [Hpad [[wd [Hf [Hin _]]] Hwh]].
  symmetry in Hwh; destruct (patch_size_fold _ _ _ _ _ _ Hwh) as [H1 [H2 _]].
  apply in_map_iff in Hin; destruct Hin as [tp [<- _]].
  pose proof (Hnn (fst tp)) as [? ?]; pose proof (Hnn "   "%string) as [? ?].
  split; [lia|split; lia].
Qed.

(** Everything [render] needs from [plan]: each biome type's row count
    is non-negative and gives room for its patches, and the counts add
    up to [rows]. *)
Lemma plan_rows_ok bp L :
  plan getsize bp = inr L -> NoDup (dict_keys bp) ->
  1 <= columns L /\
  (forall t, In t (sorted (dict_keys bp)) -> 0 <= rows_of L t /\
     Z.of_nat (length (dict_default [] t bp)) <= rows_of L t * columns L) /\
  sum_Z (map (rows_of L) (sorted (dict_keys bp))) = rows L.
Proof.
  intros H Hnd.
  destruct (plan_spec _ _ _ H) as [_ [Hmp [Hle [Hw [Hc [Hr _]]]]]].
  assert (Hwc : 1 <= wrapColumns L).
  { rewrite Hw; destruct (ceil_cbrt_spec (maxPatches L)) as [Hk [_ Hk3]]; [lia|].
    assert (ceil_cbrt (maxPatches L) <> 0) by (intros E; rewrite E in Hk3; simpl in Hk3; lia).
    lia. }
  assert (Hrow : forall t ps, In (t, ps) bp ->
            rows_of L t = (wrapColumns L - 1 + Z.of_nat (List.length ps)) / wrapColumns L).
  { intros t ps Hin; unfold rows_of; rewrite (plan_rows _ _ H Hnd _ _ Hin); reflexivity. }
  split; [lia|split].
  - intros t Ht.
    assert (Hk : In t (dict_keys bp))
      by (eapply Permutation_in; [apply sorted_perm|exact Ht]).
    apply dict_get_In_keys in Hk.
    destruct (dict_get t bp) as [ps|] eqn:Eps; [|congruence].
    apply dict_get_In in Eps as Hin.
    unfold dict_default; rewrite Eps, (Hrow _ _ Hin).
    rewrite Forall_forall in Hle; specialize (Hle _ Hin); simpl in Hle.
    rewrite (ceil_rows_eq (Z.of_nat (List.length ps)) (maxPatches L) (wrapColumns L))
      by lia.
    rewrite <- Hc.
    set (n := Z.of_nat (List.length ps)) in *; set (C := columns L) in *.
    assert (1 <= C) by lia.
    split; [apply Z.div_pos; lia|].
    pose proof (Z.mod_pos_bound (n + C - 1) C ltac:(lia)).
    pose proof (Z.div_mod (n + C - 1) C ltac:(lia)).
    nia.
  - rewrite Hr, (sum_Z_perm _ _ (Permutation_map _ (sorted_perm (dict_keys bp)))).
    f_equal.
    transitivity (map (fun tp => (wrapColumns L - 1 + Z.of_nat (List.length (snd tp)))
                                 / wrapColumns L) bp); [|reflexivity].
    unfold dict_keys; rewrite map_map; apply map_ext_in.
    intros [t ps] Hin; apply Hrow; exact Hin.
Qed.

Lemma render_plan_spec bp L ops :
  plan getsize bp = inr L -> NoDup (dict_keys bp) ->
  render getsize textsize getrgb bp L = inr ops ->
  Forall2 (accepted getrgb) (patches_in_order bp) (rect_fills ops) /\
  ((forall s, 0 <= fst (getsize s) /\ 0 <= snd (getsize s)) ->
   Forall (rect_inside (imageWidth L) (imageHeight L)) ops).
Proof.
  intros Hp Hnd H; unfold render in H.
  inv_bind H; injection H as <-.
  destruct (plan_rows_ok _ _ Hp Hnd) as [HC [Hts Hsum]].
  assert (HC' : columns L = Z.of_nat (Z.to_nat (columns L))) by lia.
  destruct (render_fold_spec _ _ _ _ _ _ HC'
              (fun t Ht => let '(conj h1 h2) := Hts t Ht in
                           conj h1 (eq_ind _ (fun c => _ <= _ * c) h2 _ HC')) Ha)
    as [_ [[fills [Hf1 Hf2]] Hin]].
  split.
  - simpl in Hf1; rewrite Hf1; exact Hf2.
  - intros Hnn.
    destruct (plan_spec _ _ _ Hp) as [_ [_ [_ [_ [_ [_ [Hiw Hih]]]]]]].
    destruct (plan_dims _ _ Hp Hnn) as [Hf [Hpw Hph]].
    assert (Hall : Forall (inside_cell L (rows L)) (fst a)).
    { apply Hin; [exact Hf|exact Hpw|exact Hph|simpl; lia|simpl; rewrite Hsum; lia|constructor]. }
    unfold inside_cell in Hall; rewrite Hiw, Hih; exact Hall.
Qed.


Lemma draw_cells_ok L ps row b Cn a m :
  columns L = Z.of_nat Cn ->
  Forall (color_ok getrgb) (firstn m (skipn (b * Cn + a) ps)) ->
  exists ops, draw_cells textsize getrgb L ps row (Z.of_nat b) (map Z.of_nat (seq a m)) = inr ops.
Proof.
  intros HC; revert a; induction m as [|m IH]; intros a Hok; simpl; [eauto|].
  rewrite HC.
  replace (Z.of_nat b * Z.of_nat Cn + Z.of_nat a) with (Z.of_nat (b * Cn + a)) by lia.
  destruct (Z.leb_spec (Z.of_nat (length ps)) (Z.of_nat (b * Cn + a))) as [Hl|Hl]; [eauto|].
  rewrite Nat2Z.id.
  rewrite (skipn_nth_cons ps (b * Cn + a) {| biomeName := ""; biomeColor := "" |}) in Hok
    by lia.
  replace (S (b * Cn + a)) with (b * Cn + (a + 1))%nat in Hok by lia.
  simpl in Hok; inversion Hok as [|? ? Hp Hrest]; subst.
  destruct (getrgb (biomeColor (nth (b * Cn + a) ps {| biomeName := ""; biomeColor := "" |})))
    as [rgb|] eqn:E; [|contradiction].
  destruct (draw_patch_ok L row (Z.of_nat a) _ _ E) as [ops1 Hops1]; rewrite Hops1; simpl.
  destruct (IH (a + 1)%nat Hrest) as [ops2 Hops2].
  replace (S a) with (a + 1)%nat by lia; rewrite Hops2; simpl; eauto.
Qed.

Lemma draw_rows_ok L t ps Cn b n row :
  columns L = Z.of_nat Cn ->
  Forall (color_ok getrgb) (firstn (n * Cn) (skipn (b * Cn) ps)) ->
  exists ops row', draw_rows getsize textsize getrgb L t ps row (map Z.of_nat (seq b n)) =
                   inr (ops, row').
Proof.
  intros HC; revert b row; induction n as [|n IH]; intros b row Hok; simpl; [eauto|].
  replace (S n * Cn)%nat with (Cn + n * Cn)%nat in Hok by lia.
  rewrite <- firstn_skipn_split, Forall_app in Hok; destruct Hok as [Hok1 Hok2].
  replace (b * Cn + Cn)%nat with (S b * Cn)%nat in Hok2 by lia.
  unfold range; rewrite HC, Nat2Z.id.
  rewrite <- (Nat.add_0_r (b * Cn)) in Hok1.
  destruct (draw_cells_ok L ps row b Cn 0 Cn HC Hok1) as [c Hc]; rewrite Hc; simpl.
  destruct (IH (S b) (row + 1) Hok2) as [o [r' Hr]]; rewrite Hr; simpl; eauto.
Qed.

Lemma render_fold_ok bp L Cn ts acc :
  columns L = Z.of_nat Cn ->
  (forall t, In t ts -> 0 <= rows_of L t /\ dict_get t (biomeTypeRows L) <> None /\
     Z.of_nat (length (dict_default [] t bp)) <= rows_of L t * Z.of_nat Cn) ->
  Forall (color_ok getrgb) (concat (map (fun t => dict_default [] t bp) ts)) ->
  exists acc', fold_res (draw_type getsize textsize getrgb bp L) ts acc = inr acc'.
Proof.
  intros HC; revert acc; induction ts as [|t ts IH]; intros acc Hts Hok; simpl; [eauto|].
  simpl in Hok; rewrite Forall_app in Hok; destruct Hok as [Hok1 Hok2].
  destruct (Hts t (or_introl eq_refl)) as [Hn0 [Hsome Hlen]].
  unfold draw_type, rows_of in *.
  destruct (dict_get t (biomeTypeRows L)) as [n|] eqn:En; [|contradiction]; simpl.
  unfold range.
  destruct (draw_rows_ok L t (dict_default [] t bp) Cn 0 (Z.to_nat n) (snd acc) HC)
    as [o [r' Hr]].
  { rewrite skipn_0, firstn_all2; [exact Hok1|].
    apply Nat2Z.inj_le; rewrite Nat2Z.inj_mul, Z2Nat.id by lia; exact Hlen. }
  rewrite Hr; simpl.
  apply IH; [|exact Hok2].
  intros t' Ht'; destruct (Hts t' (or_intror Ht')) as [h1 [h2 h3]].
  rewrite <- En in *; auto.
Qed.

Lemma render_plan_ok bp L :
  plan getsize bp = inr L -> NoDup (dict_keys bp) ->
  Forall (color_ok getrgb) (patches_in_order bp) ->
  exists ops, render getsize textsize getrgb bp L = inr ops.
Proof.
  intros Hp Hnd Hok; unfold render.
  destruct (plan_rows_ok _ _ Hp Hnd) as [HC [Hts _]].
  assert (HC' : columns L = Z.of_nat (Z.to_nat (columns L))) by lia.
  destruct (render_fold_ok bp L _ (sorted (dict_keys bp)) ([], 0) HC') as [acc' Hacc].
  - intros t Ht; destruct (Hts t Ht) as [h1 h2]; split; [exact h1|split; [|rewrite <- HC'; exact h2]].
    assert (Hk : In t (dict_keys bp))
      by (eapply Permutation_in; [apply sorted_perm|exact Ht]).
    apply dict_get_In_keys in Hk.
    destruct (dict_get t bp) as [ps|] eqn:Eps; [|congruence].
    rewrite (plan_rows _ _ Hp Hnd _ _ (dict_get_In _ _ _ Eps)); discriminate.
  - exact Hok.
  - rewrite Hacc; simpl; eauto.
Qed.

End Render.

Lemma fold_res_inv {A B} (P : B -> Prop) (f : B -> A -> res B) l b b' :
  (forall b x b', P b -> f b x = inr b' -> P b') -> P b -> fold_res f l b = inr b' -> P b'.
Proof.
  intros Hf; revert b; induction l as [|x l IH]; intros b Hb H; simpl in H.
  - injection H as <-; exact Hb.
  - inv_bind H; exact (IH _ (Hf _ _ _ Hb Ha) H).
Qed.

Lemma append_patch_nonempty t p bp : no_empty_list bp -> no_empty_list (append_patch t p bp).
Proof.
  intros H; unfold append_patch, no_empty_list.
  apply (dict_set_Forall (fun ps => ps <> [])); [exact H|].
  intros E; apply app_eq_nil in E; destruct E as [_ E]; discriminate.
Qed.

(** Extraction only ever appends: no biome type gets an empty patch list. *)
Lemma extract_nonempty st bp : extract st = inr bp -> no_empty_list bp.
Proof.
  unfold extract; apply fold_res_inv; [|constructor].
  intros b t b' Hb H; unfold extract_type in H; revert H; apply fold_res_inv; [|exact Hb].
  intros b0 n b0' Hb0 H; unfold extract_biome in H.
  inv_bind H; inv_bind H; inv_bind H; revert H; apply fold_res_inv; [|exact Hb0].
  intros b1 c b1' Hb1 H; inv_bind H; injection H as <-; apply append_patch_nonempty, Hb1.
Qed.

Lemma wrap_rows_ok w (bp : biome_patches) acc :
  w <> 0 -> exists out,
  fold_res (fun acc tp =>
              let '(btr, rows) := acc in
              let '(biomeType, patches) := tp in
              wrappedRows <- py_floordiv (w - 1 + Z.of_nat (List.length patches)) w ;;
              inr (dict_set biomeType wrappedRows btr, rows + wrappedRows))
           bp acc = inr out.
Proof.
  intros Hw; revert acc; induction bp as [|[t ps] bp IH]; intros [btr r];
    cbn [fold_res]; [eauto|].
  unfold py_floordiv at 1; destruct (Z.eqb_spec w 0); [contradiction|]; cbn [bind]; apply IH.
Qed.

Lemma plan_ok getsize bp :
  bp <> [] -> no_empty_list bp -> exists L, plan getsize bp = inr L.
Proof.
  intros Hne Hnl; unfold plan.
  destruct bp as [|[t0 ps0] bp]; [congruence|].
  inversion Hnl as [|? ? Hps0 _]; subst; simpl in Hps0.
  set (lens := map (fun tp => Z.of_nat (List.length (snd tp))) ((t0, ps0) :: bp)).
  destruct (py_max lens) as [e|mp] eqn:Emp; [simpl in Emp; discriminate|]; cbn [bind].
  apply py_max_spec in Emp; destruct Emp as [_ [Hle _]].
  inversion Hle as [|? ? H0 _]; subst; simpl in H0.
  assert (1 <= mp) by (destruct ps0; [congruence|simpl in H0; lia]).
  destruct (ceil_cbrt_spec mp) as [Hk [_ Hk3]]; [lia|].
  assert (ceil_cbrt mp <> 0) by (intros E; rewrite E in Hk3; simpl in Hk3; lia).
  destruct (wrap_rows_ok (3 * ceil_cbrt mp) ((t0, ps0) :: bp) ([], 0)) as [out Hout]; [lia|].
  unfold wrap_rows; rewrite Hout; simpl; eauto.
Qed.

(** C3: for every non-empty [biomePatches], the layout gives a total row
    count that is the sum over biome types of [ceil(patchCount / columns)]
    with [columns = min(maxPatches, wrapColumns)] (the same sum as with
    [wrapColumns], which the code divides by), and the canvas passed to
    [Image.new] is [(1 + firstColumnWidth + patchWidth * columns,
    1 + patchHeight * rows)].  The layout exists whenever no patch list is
    empty, which is always the case for the [defaultdict(list)] built by
    appending; the formulas hold for every layout computed, whether or not
    rendering then succeeds. *)
Theorem grid_rows_and_canvas getsize bp :
  bp <> [] ->
  (no_empty_list bp -> exists L, plan getsize bp = inr L) /\
  forall L, plan getsize bp = inr L ->
    columns L = Z.min (maxPatches L) (wrapColumns L) /\
    rows L = sum_Z (map (fun tp => (Z.of_nat (List.length (snd tp)) + columns L - 1)
                                   / columns L) bp) /\
    rows L = sum_Z (map (fun tp => (wrapColumns L - 1 + Z.of_nat (List.length (snd tp)))
                                   / wrapColumns L) bp) /\
    imageWidth L = 1 + firstColumnWidth L + patchWidth L * columns L /\
    imageHeight L = 1 + patchHeight L * rows L.
Proof.
  intros Hne; split; [apply plan_ok, Hne|].
  intros L Hp.
  destruct (plan_spec _ _ _ Hp) as [_ [Hmp [Hle [Hw [Hc [Hr [Hiw Hih]]]]]]].
  split; [exact Hc|split; [|split; [exact Hr|split; assumption]]].
  rewrite Hr; unfold sum_Z; f_equal; apply map_ext_in; intros tp Htp.
  rewrite Forall_forall in Hle; specialize (Hle tp Htp).
  assert (1 <= wrapColumns L).
  { rewrite Hw; destruct (ceil_cbrt_spec (maxPatches L)) as [Hk [_ Hk3]]; [lia|].
    assert (ceil_cbrt (maxPatches L) <> 0) by (intros E; rewrite E in Hk3; simpl in Hk3; lia).
    lia. }
  rewrite Hc; apply ceil_rows_eq; lia.
Qed.

Section RunExtras.

Variable simplejson_load : string -> parse_result.
Variable getsize : string -> Z * Z.
Variable textsize : string -> Z * Z.
Variable getrgb : string -> option (Z * Z * Z).

Lemma run_stages fs errs img :
  run simplejson_load getsize textsize getrgb fs = (errs, inr img) ->
  exists st bp L,
    load_files simplejson_load [] fs = (errs, inr st) /\ extract st = inr bp /\
    plan getsize bp = inr L /\ render getsize textsize getrgb bp L = inr (imgOps img) /\
    imgWidth img = imageWidth L /\ imgHeight img = imageHeight L.
Proof.
  unfold run; intros H.
  destruct (load_files simplejson_load [] fs) as [e r] eqn:El.
  injection H as <- Hb.
  inv_bind Hb; inv_bind Hb; inv_bind Hb; inv_bind Hb; injection Hb as <-.
  subst; exists a, a0, a1; repeat split; assumption.
Qed.

Lemma loaded_patches_nodup fs errs st bp :
  load_files simplejson_load [] fs = (errs, inr st) -> extract st = inr bp ->
  NoDup (dict_keys bp).
Proof.
  intros Hl He.
  assert (Hk : keys_distinct st).
  { eapply load_files_keys_distinct; [|exact Hl]; split; constructor. }
  exact (proj1 (extract_structure _ _ Hk He)).
Qed.

(** Extra: when the script saves an image, the coloured rectangles it
    drew are exactly one per patch, in the order of the sorted biome
    types and of each type's list, each filled with the colour
    [ImageColor.getrgb] gives for the patch's colour code. *)
Theorem run_draws_each_patch_once fs errs img :
  run simplejson_load getsize textsize getrgb fs = (errs, inr img) ->
  exists st bp,
    load_files simplejson_load [] fs = (errs, inr st) /\ extract st = inr bp /\
    Forall2 (fun p rgb => getrgb (biomeColor p) = Some rgb)
            (patches_in_order bp) (rect_fills (imgOps img)).
Proof.
  intros H; destruct (run_stages _ _ _ H) as (st & bp & L & Hl & He & Hp & Hr & _).
  exists st, bp; split; [exact Hl|split; [exact He|]].
  exact (proj1 (render_plan_spec _ _ _ _ _ _ Hp (loaded_patches_nodup _ _ _ _ Hl He) Hr)).
Qed.

(** Extra: with a font whose text sizes are non-negative, every
    rectangle of a saved image lies inside the canvas. *)
Theorem run_rectangles_inside_canvas fs errs img :
  (forall s, 0 <= fst (getsize s) /\ 0 <= snd (getsize s)) ->
  run simplejson_load getsize textsize getrgb fs = (errs, inr img) ->
  Forall (rect_inside (imgWidth img) (imgHeight img)) (imgOps img).
Proof.
  intros Hnn H; destruct (run_stages _ _ _ H) as (st & bp & L & Hl & He & Hp & Hr & Hw & Hh).
  rewrite Hw, Hh.
  exact (proj2 (render_plan_spec _ _ _ _ _ _ Hp (loaded_patches_nodup _ _ _ _ Hl He) Hr) Hnn).
Qed.

Lemma bind_inl {A B} (m : res A) (k : A -> res B) (e : exn) :
  bind m k = inl e -> m = inl e \/ exists a, m = inr a /\ k a = inl e.
Proof. destruct m as [e'|a]; simpl; [intros H; left; injection H as ->; reflexivity|eauto]. Qed.

Lemma draw_patch_err L row c p e :
  draw_patch textsize getrgb L row c p = inl e -> e = ValueError "unknown color specifier".
Proof.
  unfold draw_patch; intros H; apply bind_inl in H; destruct H as [H|[rgb [_ H]]].
  - destruct (getrgb (biomeColor p)); [discriminate|injection H as <-; reflexivity].
  - destruct rgb as [[r g] b]; discriminate.
Qed.

Lemma draw_cells_err L ps row r cs e :
  draw_cells textsize getrgb L ps row r cs = inl e -> e = ValueError "unknown color specifier".
Proof.
  induction cs as [|c cs IH]; simpl; [discriminate|].
  destruct (_ <=? _); [discriminate|].
  intros H; apply bind_inl in H; destruct H as [H|[o [_ H]]]; [eapply draw_patch_err; eauto|].
  apply bind_inl in H; destruct H as [H|[o' [_ H]]]; [apply IH, H|discriminate].
Qed.

Lemma draw_rows_err L t ps row rs e :
  draw_rows getsize textsize getrgb L t ps row rs = inl e -> e = ValueError "unknown color specifier".
Proof.
  revert row; induction rs as [|r rs IH]; intros row; cbn [draw_rows]; [discriminate|].
  intros H; apply bind_inl in H; destruct H as [H|[o [_ H]]]; [eapply draw_cells_err; eauto|].
  apply bind_inl in H; destruct H as [H|[o' [_ H]]]; [eapply IH; eauto|discriminate].
Qed.

Lemma render_fold_err bp L ts acc e :
  fold_res (draw_type getsize textsize getrgb bp L) ts acc = inl e ->
  e = ValueError "unknown color specifier" \/
  exists t, In t ts /\ dict_get t (biomeTypeRows L) = None.
Proof.
  revert acc; induction ts as [|t ts IH]; intros acc; cbn [fold_res]; [discriminate|].
  intros H; apply bind_inl in H; destruct H as [H|[a [_ H]]].
  - unfold draw_type in H; apply bind_inl in H; destruct H as [H|[n [En H]]].
    + destruct (dict_get t (biomeTypeRows L)) eqn:E; [discriminate|].
      right; exists t; split; [left; reflexivity|exact E].
    + apply bind_inl in H; destruct H as [H|[o [_ H]]]; [left; eapply draw_rows_err; eauto|discriminate].
  - destruct (IH _ H) as [He|[t' [Ht' Hn]]]; [left; exact He|right; exists t'; split; [right|]; assumption].
Qed.

(** Extra: once loading and extraction succeed with at least one biome
    type, the script saves an image exactly when [ImageColor.getrgb]
    accepts the colour code of every patch; when it rejects one, the
    script ends with getrgb's [ValueError], after the loader's lines. *)
Theorem run_saves_iff_colors_parse fs errs st bp :
  load_files simplejson_load [] fs = (errs, inr st) -> extract st = inr bp -> bp <> [] ->
  ((exists img, run simplejson_load getsize textsize getrgb fs = (errs, inr img)) <->
   Forall (fun p => getrgb (biomeColor p) <> None) (patches_in_order bp)) /\
  (Exists (fun p => getrgb (biomeColor p) = None) (patches_in_order bp) ->
   run simplejson_load getsize textsize getrgb fs =
     (errs, inl (ValueError "unknown color specifier"))).
Proof.
  intros Hl He Hne.
  pose proof (loaded_patches_nodup _ _ _ _ Hl He) as Hnd.
  destruct (plan_ok getsize bp Hne (extract_nonempty _ _ He)) as [L Hp].
  assert (Hrun : run simplejson_load getsize textsize getrgb fs =
                 (errs, ops <- render getsize textsize getrgb bp L ;;
                        inr {| imgWidth := imageWidth L; imgHeight := imageHeight L;
                               imgBackground := "#404040"; imgOps := ops |})).
  { unfold run; rewrite Hl; cbn [bind]; rewrite He; cbn [bind]; rewrite Hp; reflexivity. }
  split.
  - split.
    + intros [img H]; rewrite Hrun in H; injection H as H.
      apply bind_inr in H; destruct H as [ops [Hr _]].
      destruct (render_plan_spec getsize textsize getrgb _ _ _ Hp Hnd Hr) as [Hf _].
      clear - Hf; induction Hf as [|p rgb ps rgbs Hp _ IH]; constructor; [congruence|exact IH].
    + intros Hok.
      destruct (render_plan_ok getsize textsize getrgb _ _ Hp Hnd Hok) as [ops Hr].
      rewrite Hrun, Hr; eexists; reflexivity.
  - intros Hex; rewrite Hrun.
    destruct (render getsize textsize getrgb bp L) as [e|ops] eqn:Hr.
    + cbn [bind]; f_equal; f_equal.
      unfold render in Hr; apply bind_inl in Hr; destruct Hr as [Hr|[a [_ Hr]]]; [|discriminate].
      destruct (render_fold_err _ _ _ _ _ Hr) as [Ee|[t [Ht Hn]]]; [exact Ee|exfalso].
      assert (Hk : In t (dict_keys bp))
        by (eapply Permutation_in; [apply sorted_perm|exact Ht]).
      apply dict_get_In_keys in Hk.
      destruct (dict_get t bp) as [ps|] eqn:Eps; [|congruence].
      rewrite (plan_rows getsize textsize getrgb _ _ Hp Hnd _ _ (dict_get_In _ _ _ Eps)) in Hn; discriminate.
    + exfalso.
      destruct (render_plan_spec getsize textsize getrgb _ _ _ Hp Hnd Hr) as [Hf _].
      clear - Hf Hex; induction Hf as [|p rgb ps rgbs Hp _ IH]; inversion Hex; subst;
        [congruence|auto].
Qed.

End RunExtras.

Lemma Forall2_In_l {A B} (P : A -> B -> Prop) xs ys x :
  Forall2 P xs ys -> In x xs -> exists y, In (x, y) (combine xs ys) /\ P x y.
Proof.
  induction 1 as [|x' y' xs ys Hp Hr IH]; simpl; [intros []|].
  intros [<-|Hi]; [exists y'; auto|].
  destruct (IH Hi) as [y [Hin Hy]]; exists y; auto.
Qed.

Lemma block_patches_In ns css n cs c :
  In (n, cs) (combine ns css) -> In c cs -> In (mk_patch n c) (block_patches ns css).
Proof.
  intros H Hc; unfold block_patches; apply in_concat.
  exists (map (mk_patch n) cs); split; [|apply in_map, Hc].
  apply (in_map (fun ncs => map (mk_patch (fst ncs)) (snd ncs))) in H; exact H.
Qed.

Lemma map_JStr_inj l1 l2 : map JStr l1 = map JStr l2 -> l1 = l2.
Proof.
  revert l2; induction l1 as [|x l1 IH]; intros [|y l2]; simpl; try discriminate; [auto|].
  intros [= -> E]; f_equal; auto.
Qed.

(** Every colour of every loaded biome becomes a patch of its type. *)
Lemma extract_has_patch st bp t d n b cv cs c :
  keys_distinct st -> extract st = inr bp ->
  dict_get t st = Some d -> dict_get n d = Some b ->
  getitem b "biomeColors" = inr cv -> iter_colors cv = inr (map JStr cs) -> In c cs ->
  exists ps, dict_get t bp = Some ps /\ In (mk_patch n c) ps.
Proof.
  intros [Hnd Hin] He Hd Hn Hb Hcv Hc; unfold extract in He.
  assert (Hts : NoDup (sorted (dict_keys st))).
  { eapply Permutation_NoDup; [symmetry; apply sorted_perm|exact Hnd]. }
  destruct (extract_types_spec _ _ _ _ Hts He) as [_ [_ Hi]].
  assert (Ht : In t (sorted (dict_keys st))).
  { eapply Permutation_in; [symmetry; apply sorted_perm|].
    apply dict_get_In_keys; congruence. }
  destruct (Hi t Ht) as [css [Hbl Hdd]].
  replace (dict_default [] t st) with d in Hbl, Hdd
    by (unfold dict_default; rewrite Hd; reflexivity).
  assert (Hns : In n (sorted (dict_keys d))).
  { eapply Permutation_in; [symmetry; apply sorted_perm|].
    apply dict_get_In_keys; congruence. }
  destruct (Forall2_In_l _ _ _ _ Hbl Hns) as [cs' [Hcomb [b' [cv' [Hn' [Hb' Hcv']]]]]].
  rewrite Hn in Hn'; injection Hn' as <-; rewrite Hb in Hb'; injection Hb' as <-.
  rewrite Hcv in Hcv'; injection Hcv' as Ecs; apply map_JStr_inj in Ecs; subst cs'.
  pose proof (block_patches_In _ _ _ _ _ Hcomb Hc) as Hp.
  simpl in Hdd; rewrite <- Hdd in Hp; unfold dict_default in Hp.
  destruct (dict_get t bp) as [ps|]; [eauto|destruct Hp].
Qed.

Section LoadExtras.

Variable simplejson_load : string -> parse_result.

(** Extra: no biome type gets an empty patch list, and a biome type has
    patches exactly when one of its biomes has a non-empty list of
    string colours. *)
Theorem extract_types_with_colors fs errs st bp :
  load_files simplejson_load [] fs = (errs, inr st) -> extract st = inr bp ->
  (forall t ps, dict_get t bp = Some ps -> ps <> []) /\
  (forall t, (exists ps, dict_get t bp = Some ps) <->
     exists d n b cv c cs, dict_get t st = Some d /\ dict_get n d = Some b /\
       getitem b "biomeColors" = inr cv /\ iter_colors cv = inr (map JStr (c :: cs))).
Proof.
  intros Hl He.
  assert (Hk : keys_distinct st).
  { eapply load_files_keys_distinct; [|exact Hl]; split; constructor. }
  assert (Hne : forall t ps, dict_get t bp = Some ps -> ps <> []).
  { intros t ps Ht; apply dict_get_In in Ht.
    pose proof (extract_nonempty _ _ He) as Hnl; unfold no_empty_list in Hnl.
    rewrite Forall_forall in Hnl; exact (Hnl _ Ht). }
  split; [exact Hne|intros t; split].
  - intros [ps Ht].
    destruct (proj2 (extract_structure _ _ Hk He) t ps Ht) as [d [css [Hd [_ [Hb ->]]]]].
    pose proof (Hne t _ Ht) as Hnn.
    destruct (block_patches (sorted (dict_keys d)) css) as [|p ps] eqn:E; [congruence|].
    assert (Hp : In p (block_patches (sorted (dict_keys d)) css)) by (rewrite E; left; reflexivity).
    unfold block_patches in Hp; apply in_concat in Hp; destruct Hp as [l [Hl' Hpl]].
    apply in_map_iff in Hl'; destruct Hl' as [[n cs0] [<- Hcomb]]; simpl in Hpl.
    destruct cs0 as [|c cs]; [destruct Hpl|].
    destruct (Forall2_combine_In _ _ _ _ _ Hb Hcomb) as [b [cv [Hn [Hcv Hit]]]].
    exists d, n, b, cv, c, cs; auto.
  - intros (d & n & b & cv & c & cs & Hd & Hn & Hb & Hcv).
    destruct (extract_has_patch _ _ _ _ _ _ _ _ c Hk He Hd Hn Hb Hcv (or_introl eq_refl))
      as [ps [Hps _]]; eauto.
Qed.


(** Extra: a [biomeColors] value that is a single string is iterated
    character by character: each character becomes a patch colour. *)
Theorem string_colors_split_into_chars fs errs st bp t d n b s c :
  load_files simplejson_load [] fs = (errs, inr st) -> extract st = inr bp ->
  dict_get t st = Some d -> dict_get n d = Some b ->
  getitem b "biomeColors" = inr (JStr s) -> In c (list_ascii_of_string s) ->
  exists ps, dict_get t bp = Some ps /\
    In {| biomeName := n; biomeColor := colorCode (String c EmptyString) |} ps.
Proof.
  intros Hl He Hd Hn Hb Hc.
  assert (Hk : keys_distinct st).
  { eapply load_files_keys_distinct; [|exact Hl]; split; constructor. }
  apply (extract_has_patch st bp t d n b (JStr s)
           (map (fun c => String c EmptyString) (list_ascii_of_string s))
           (String c EmptyString) Hk He Hd Hn Hb).
  - simpl; rewrite map_map; reflexivity.
  - apply (in_map (fun c => String c EmptyString)), Hc.
Qed.

(** Extra: when loading gets through all files, its error lines are
    exactly one [JSON error] line for each file simplejson rejects, in
    the order of the files. *)
Theorem load_diagnostics_one_per_bad_file st fs errs st' :
  load_files simplejson_load st fs = (errs, inr st') ->
  errs = flat_map (json_diag simplejson_load) fs.
Proof.
  revert st errs; induction fs as [|f fs IH]; intros st errs H; simpl in H.
  - injection H as <- _; reflexivity.
  - destruct (load_file simplejson_load st f) as [e1 r1] eqn:E1.
    destruct r1 as [ex|st1]; [discriminate|].
    destruct (load_files simplejson_load st1 fs) as [e2 r2] eqn:E2.
    injection H as <- ->.
    simpl; rewrite (IH st1 e2 E2); f_equal.
    unfold load_file in E1; unfold json_diag.
    destruct (simplejson_load (fileText f)); injection E1 as <- _; reflexivity.
Qed.

(** Extra: a parsed record with [enabled] and a string [biomeType] is
    stored under its type and the file's base name without extension,
    replacing any record of that base name in that type and leaving
    everything else as it was. *)
Theorem load_file_stores_record st f biome e t :
  simplejson_load (fileText f) = Parsed biome ->
  getitem biome "enabled" = inr e -> getitem biome "biomeType" = inr (JStr t) ->
  let baseName := splitext_root (basename (fileName f)) in
  exists st', load_file simplejson_load st f = ([], inr st') /\
    (exists g, dict_get t st' = Some g /\ dict_get baseName g = Some biome /\
       forall n, n <> baseName -> dict_get n g = dict_get n (dict_default [] t st)) /\
    (forall t', t' <> t -> dict_get t' st' = dict_get t' st).
Proof.
  intros Hp He Ht baseName.
  eexists; split.
  - unfold load_file; rewrite Hp, He; simpl; rewrite Ht; reflexivity.
  - split.
    + eexists; split; [apply dict_get_set_eq|split; [apply dict_get_set_eq|]].
      intros n Hn; apply dict_get_set_neq; intros E; apply Hn; rewrite <- E; reflexivity.
    + intros t' Ht'; apply dict_get_set_neq; congruence.
Qed.

End LoadExtras.

Lemma string_app_nil_r (s : string) : (s ++ "")%string = s.
Proof. induction s as [|c s IH]; simpl; [reflexivity|now rewrite IH]. Qed.

Lemma string_app_assoc (a b c : string) : (a ++ (b ++ c))%string = ((a ++ b) ++ c)%string.
Proof. induction a as [|x a IH]; simpl; [reflexivity|now rewrite IH]. Qed.

Lemma list_ascii_of_string_app (a b : string) :
  list_ascii_of_string (a ++ b) = list_ascii_of_string a ++ list_ascii_of_string b.
Proof. induction a as [|x a IH]; simpl; [reflexivity|now rewrite IH]. Qed.

Lemma basename_go_noslash q acc :
  ~ In "/"%char (list_ascii_of_string q) -> basename_go q acc = (acc ++ q)%string.
Proof.
  revert acc; induction q as [|c q IH]; intros acc Hq; simpl in *.
  - now rewrite string_app_nil_r.
  - destruct (Ascii.eqb_spec c "/") as [->|Hc]; [exfalso; auto|].
    rewrite IH by tauto; rewrite <- string_app_assoc; reflexivity.
Qed.

Lemma basename_go_slash p q acc :
  basename_go (p ++ String "/" q) acc = basename_go q EmptyString.
Proof.
  revert acc; induction p as [|c p IH]; intros acc; simpl; [reflexivity|].
  destruct (Ascii.eqb c "/"); apply IH.
Qed.

Lemma last_index_of_absent c l i found :
  ~ In c l -> last_index_of c l i found = found.
Proof.
  revert i found; induction l as [|x l IH]; intros i found H; simpl; [reflexivity|].
  destruct (Ascii.eqb_spec c x) as [->|_]; [exfalso; apply H; left; reflexivity|].
  apply IH; simpl in H; tauto.
Qed.

Lemma last_index_of_last c l1 l2 i found :
  ~ In c l2 -> last_index_of c (l1 ++ c :: l2) i found = Some (i + length l1)%nat.
Proof.
  intros H2; revert i found; induction l1 as [|x l1 IH]; intros i found; simpl.
  - rewrite Ascii.eqb_refl, Nat.add_0_r; apply last_index_of_absent, H2.
  - rewrite IH; f_equal; lia.
Qed.

(** Extra: for a file [dir/n.json] from the glob, the base name the
    loader keys the biome by is [n], when [n] has no slash and is not
    made of dots only. *)
Theorem glob_path_basename dir n :
  ~ In "/"%char (list_ascii_of_string n) ->
  existsb (fun c => negb (Ascii.eqb c ".")) (list_ascii_of_string n) = true ->
  splitext_root (basename (dir ++ "/" ++ n ++ ".json")) = n.
Proof.
  intros Hs He; unfold basename.
  change ("/" ++ n ++ ".json")%string with (String "/" (n ++ ".json")).
  rewrite basename_go_slash, basename_go_noslash.
  - simpl; unfold splitext_root.
    rewrite list_ascii_of_string_app.
    change (list_ascii_of_string ".json") with (["."; "j"; "s"; "o"; "n"]%char).
    rewrite last_index_of_last by (simpl; intuition discriminate).
    simpl; rewrite firstn_app, firstn_all, Nat.sub_diag, firstn_O, app_nil_r, He.
    apply string_of_list_ascii_of_string.
  - rewrite list_ascii_of_string_app, in_app_iff; simpl; intuition discriminate.
Qed.

Section PlanExtras.

Variable getsize : string -> Z * Z.

(** Extra: the padding is the width of three spaces; the first column
    is the widest biome type label plus twice the padding; every patch
    cell has room for its name plus padding, and seven text heights plus
    padding; the cell sizes are those of some patch name, or 0. *)
Theorem plan_cells_fit_labels bp L :
  plan getsize bp = inr L ->
  patchPadding L = fst (getsize "   ") /\
  Forall (fun tp => fst (getsize (fst tp)) + 2 * patchPadding L <= firstColumnWidth L) bp /\
  (exists tp, In tp bp /\ firstColumnWidth L = fst (getsize (fst tp)) + 2 * patchPadding L) /\
  (forall t ps p, In (t, ps) bp -> In p ps ->
     fst (getsize (biomeName p)) + 2 * patchPadding L <= patchWidth L /\
     7 * snd (getsize (biomeName p)) + 2 * patchPadding L <= patchHeight L) /\
  (patchWidth L = 0 \/ exists t ps p, In (t, ps) bp /\ In p ps /\
     patchWidth L = fst (getsize (biomeName p)) + 2 * patchPadding L) /\
  (patchHeight L = 0 \/ exists t ps p, In (t, ps) bp /\ In p ps /\
     patchHeight L = 7 * snd (getsize (biomeName p)) + 2 * patchPadding L).
Proof.
  intros H.
  destruct (plan_sizes _ _ _ H) as [Hpad [[wd [Hf [Hin Hle]]] Hwh]].
  symmetry in Hwh.
  destruct (patch_size_fold _ _ _ _ _ _ _ Hwh) as [_ [_ [Hall [Hw Hh]]]].
  assert (Hc : forall p, In p (concat (map snd bp)) ->
                 exists t ps, In (t, ps) bp /\ In p ps).
  { intros p Hp; apply in_concat in Hp; destruct Hp as [ps [Hps Hp]].
    apply in_map_iff in Hps; destruct Hps as [[t ps'] [E Ht]]; simpl in E; subst ps'.
    exists t, ps; split; assumption. }
  split; [exact Hpad|split; [|split; [|split; [|split]]]].
  - rewrite Forall_forall in Hle |- *; intros tp Htp; specialize (Hle tp Htp); lia.
  - apply in_map_iff in Hin; destruct Hin as [tp [E Htp]].
    exists tp; split; [exact Htp|lia].
  - intros t ps p Htp Hp; rewrite Forall_forall in Hall; apply Hall.
    apply in_concat; exists ps; split; [|exact Hp].
    apply in_map_iff; exists (t, ps); split; [reflexivity|exact Htp].
  - destruct Hw as [Hw|[p [Hp Hw]]]; [left; exact Hw|right].
    destruct (Hc p Hp) as [t [ps [Ht Hps]]]; exists t, ps, p; auto.
  - destruct Hh as [Hh|[p [Hp Hh]]]; [left; exact Hh|right].
    destruct (Hc p Hp) as [t [ps [Ht Hps]]]; exists t, ps, p; auto.
Qed.

End PlanExtras.

Lemma fold_res_map_eq {A B C} (g : A -> C) (f : B -> A -> res B) l1 l2 b :
  (forall acc x y, g x = g y -> f acc x = f acc y) ->
  map g l1 = map g l2 -> fold_res f l1 b = fold_res f l2 b.
Proof.
  intros Hf; revert l2 b; induction l1 as [|x l1 IH]; intros [|y l2] b E;
    simpl in E; try discriminate; [reflexivity|].
  injection E as Exy El; cbn [fold_res]; rewrite (Hf b x y Exy).
  destruct (f b y) as [e|b']; [reflexivity|apply IH, El].
Qed.

Lemma fold_left_map_eq {A B C} (g : A -> C) (f : B -> A -> B) l1 l2 b :
  (forall acc x y, g x = g y -> f acc x = f acc y) ->
  map g l1 = map g l2 -> fold_left f l1 b = fold_left f l2 b.
Proof.
  intros Hf; revert l2 b; induction l1 as [|x l1 IH]; intros [|y l2] b E;
    simpl in E; try discriminate; [reflexivity|].
  injection E as Exy El; cbn [fold_left]; rewrite (Hf b x y Exy); apply IH, El.
Qed.

(** Extra: the layout depends only on the biome types and the patch
    names, never on the colour codes. *)
Theorem plan_ignores_colors getsize bp1 bp2 :
  type_names bp1 = type_names bp2 -> plan getsize bp1 = plan getsize bp2.
Proof.
  unfold type_names; intros E.
  assert (Ec : forall {C} (h : string * list string -> C),
             map (fun tp => h (fst tp, map biomeName (snd tp))) bp1 =
             map (fun tp => h (fst tp, map biomeName (snd tp))) bp2).
  { intros C h; rewrite <- (map_map _ h), E, map_map; reflexivity. }
  pose proof (Ec _ (fun tn => Z.of_nat (List.length (snd tn)))) as El;
    simpl in El; rewrite !(map_ext _ _ (fun tp => f_equal Z.of_nat (length_map biomeName (snd tp)))) in El.
  pose proof (Ec _ (fun tn => fst (getsize (fst tn)))) as Ew; simpl in Ew.
  assert (Ep : map biomeName (concat (map snd bp1)) = map biomeName (concat (map snd bp2))).
  { rewrite !concat_map, !map_map.
    exact (f_equal (@concat string) (Ec _ snd)). }
  unfold plan; rewrite El, Ew.
  destruct (py_max _) as [e|mp]; [reflexivity|cbn [bind]].
  unfold wrap_rows.
  rewrite (fold_res_map_eq (fun tp => (fst tp, Z.of_nat (List.length (snd tp)))) _ bp1 bp2).
  - destruct (fold_res _ bp2 _) as [e|wr]; [reflexivity|cbn [bind]].
    destruct (py_max _) as [e|wd]; [reflexivity|cbn [bind]].
    assert (Hs : forall pad (acc : Z * Z) x y, biomeName x = biomeName y ->
                   patch_size_step getsize pad acc x = patch_size_step getsize pad acc y)
      by (intros pad [w h] x y Exy; unfold patch_size_step; rewrite Exy; reflexivity).
    rewrite (fold_left_map_eq biomeName _ _ _ _ (Hs _) Ep); reflexivity.
  - intros [btr r] [t ps] [t' ps'] Exy; simpl in Exy; injection Exy as -> ->; reflexivity.
  - rewrite <- (map_map _ (fun tn => (fst tn, Z.of_nat (List.length (snd tn))))).
    pose proof (Ec _ (fun tn => (fst tn, Z.of_nat (List.length (snd tn))))) as E2; simpl in E2.
    rewrite !(map_ext (fun tp : string * list patch => (fst tp, Z.of_nat (List.length (map biomeName (snd tp)))))
                      (fun tp => (fst tp, Z.of_nat (List.length (snd tp))))) in E2
      by (intros; rewrite length_map; reflexivity).
    rewrite map_map; exact E2.
Qed.

(** Extra: [maxSize] raises [ValueError] on no sizes; otherwise it
    returns the largest width and the largest height, each taken from
    some size. *)
Theorem maxSize_spec sizes :
  (sizes = [] -> maxSize sizes = inl (ValueError "max() arg is an empty sequence")) /\
  (sizes <> [] -> exists w h, maxSize sizes = inr (w, h) /\
     Forall (fun s => fst s <= w /\ snd s <= h) sizes /\
     In w (map fst sizes) /\ In h (map snd sizes)).
Proof.
  split; [intros ->; reflexivity|].
  destruct sizes as [|s0 sizes]; [contradiction|intros _].
  destruct (py_max (map fst (s0 :: sizes))) as [e|w] eqn:Hw; [discriminate|].
  destruct (py_max (map snd (s0 :: sizes))) as [e|h] eqn:Hh; [discriminate|].
  unfold maxSize; rewrite Hw; cbn [bind]; rewrite Hh; cbn [bind].
  apply py_max_spec in Hw as [_ [Hw1 Hw2]]; apply py_max_spec in Hh as [_ [Hh1 Hh2]].
  exists w, h; split; [reflexivity|split; [|split; assumption]].
  rewrite Forall_map in Hw1, Hh1; rewrite Forall_forall in *; intros x Hx; auto.
Qed.

Section Colors.

Variable simplejson_load : string -> parse_result.
Variable getsize : string -> Z * Z.
Variable textsize : string -> Z * Z.
Variable getrgb : string -> option (Z * Z * Z).

Lemma contrastingColor_bw rgb :
  contrastingColor rgb = "#ffffff"%string \/ contrastingColor rgb = "#000000"%string.
Proof. unfold contrastingColor; destruct (Qcompare _ _); auto. Qed.

Lemma draw_patch_colors L row c p ops :
  draw_patch textsize getrgb L row c p = inr ops -> Forall op_colors_ok ops.
Proof.
  intros H; destruct (draw_patch_spec textsize getrgb _ _ _ _ _ H)
    as (rgb & texts & _ & -> & _ & Ht).
  constructor; [reflexivity|].
  rewrite Forall_forall in Ht |- *; intros op Hop.
  destruct (Ht op Hop) as (x & y & t & ->); apply contrastingColor_bw.
Qed.

Lemma draw_cells_colors L ps row r cs ops :
  draw_cells textsize getrgb L ps row r cs = inr ops -> Forall op_colors_ok ops.
Proof.
  revert ops; induction cs as [|c cs IH]; intros ops H; simpl in H.
  - injection H as <-; constructor.
  - destruct (_ <=? _); [injection H as <-; constructor|].
    inv_bind H; inv_bind H; injection H as <-.
    apply Forall_app; split; [eapply draw_patch_colors; eauto|apply IH; assumption].
Qed.

Lemma draw_rows_colors L t ps row rs ops row' :
  draw_rows getsize textsize getrgb L t ps row rs = inr (ops, row') ->
  Forall op_colors_ok ops.
Proof.
  revert row ops row'; induction rs as [|r rs IH]; intros row ops row' H; cbn [draw_rows] in H.
  - injection H as <- _; constructor.
  - inv_bind H; inv_bind H; injection H as <- _.
    destruct a0 as [o r0].
    constructor; [reflexivity|constructor; [left; reflexivity|]].
    apply Forall_app; split; [eapply draw_cells_colors; eauto|eapply IH; eauto].
Qed.

Lemma render_colors bp L ops :
  render getsize textsize getrgb bp L = inr ops -> Forall op_colors_ok ops.
Proof.
  unfold render; intros H; inv_bind H; injection H as <-.
  assert (G : forall ts acc acc', Forall op_colors_ok (fst acc) ->
            fold_res (draw_type getsize textsize getrgb bp L) ts acc = inr acc' ->
            Forall op_colors_ok (fst acc')).
  { induction ts as [|t ts IH]; intros acc acc' Hacc Hf; cbn [fold_res] in Hf.
    - injection Hf as <-; exact Hacc.
    - inv_bind Hf; apply (IH a0 acc'); [|exact Hf].
      unfold draw_type in Ha0; inv_bind Ha0; inv_bind Ha0; injection Ha0 as <-.
      destruct a2 as [o r]; simpl.
      apply Forall_app; split; [exact Hacc|eapply draw_rows_colors; eauto]. }
  exact (G _ ([], 0) _ (Forall_nil _) Ha).
Qed.

(** Extra: in a saved image every rectangle has a black outline and
    every text is white or black. *)
Theorem run_outlines_black_texts_bw fs errs img :
  run simplejson_load getsize textsize getrgb fs = (errs, inr img) ->
  Forall op_colors_ok (imgOps img).
Proof.
  intros H; destruct (run_stages _ _ _ _ _ _ _ H) as (st & bp & L & _ & _ & _ & Hr & _).
  eapply render_colors; eauto.
Qed.

End Colors.

(** ** Runs on the sample inputs *)

Definition sample_run := Sample.run_sample.

Definition sample_load (fs : list file) :=
  load_files Sample.simplejson_load [] fs.

(** C1: a record without [biomeType] in front of three good files: the
    run stops with [KeyError('biomeType')] and saves no image, although
    the three files alone produce one. *)
Lemma missing_biomeType_counterexample :
  sample_run (Sample.stray :: Sample.forest_desert) =
    ([], inl (KeyError "biomeType"%string)) /\
  exists img, sample_run Sample.forest_desert = ([], inr img).
Proof.
  split; [vm_compute; reflexivity|].
  eexists; vm_compute; reflexivity.
Qed.

Lemma missing_biomeType_aborts_witness :
  (load_files Sample.simplejson_load [] [] = ([], inr []) /\
   Sample.simplejson_load (fileText Sample.stray) = Parsed (JObj Sample.no_type_kvs) /\
   dict_get "enabled"%string (rev Sample.no_type_kvs) <> None /\
   dict_get "biomeType"%string (rev Sample.no_type_kvs) = None) /\
  sample_run ([] ++ Sample.stray :: Sample.forest_desert) =
    ([], inl (KeyError "biomeType"%string)).
Proof.
  split; [split; [reflexivity|split; [reflexivity|split; [discriminate|reflexivity]]]|].
  apply (missing_biomeType_aborts Sample.simplejson_load Sample.getsize Sample.getsize
           Sample.getrgb [] Sample.stray Sample.forest_desert [] [] Sample.no_type_kvs);
    [reflexivity|reflexivity|discriminate|reflexivity].
Defined.

(** C2: with no biome file at all, nothing is reported and the run stops
    with the [ValueError] of [max()]. *)
Lemma no_patches_counterexample :
  sample_run [] = ([], inl (ValueError "max() arg is an empty sequence"%string)).
Proof. vm_compute; reflexivity. Qed.

Lemma no_patches_max_raises_witness :
  (sample_load [Sample.bare] =
     ([], inr [("Forest"%string, [("Bare"%string, JObj Sample.bare_kvs)])]) /\
   extract [("Forest"%string, [("Bare"%string, JObj Sample.bare_kvs)])] = inr []) /\
  sample_run [Sample.bare] =
    ([], inl (ValueError "max() arg is an empty sequence"%string)).
Proof.
  split; [split; vm_compute; reflexivity|].
  apply (no_patches_max_raises Sample.simplejson_load Sample.getsize Sample.getsize
           Sample.getrgb [Sample.bare] [] [("Forest"%string, [("Bare"%string, JObj Sample.bare_kvs)])]);
    vm_compute; reflexivity.
Defined.

Lemma grid_rows_and_canvas_witness :
  plan Sample.getsize Sample.fd_patches = inr Sample.fd_layout /\
  imageWidth Sample.fd_layout = 361 /\ imageHeight Sample.fd_layout = 321 /\
  columns Sample.fd_layout = Z.min (maxPatches Sample.fd_layout) (wrapColumns Sample.fd_layout) /\
  imageHeight Sample.fd_layout = 1 + patchHeight Sample.fd_layout * rows Sample.fd_layout /\
  (exists L, plan Sample.getsize Sample.weird_patches = inr L /\
     imageWidth L = 1 + firstColumnWidth L + patchWidth L * columns L) /\
  snd (sample_run [Sample.weird]) = inl (ValueError "unknown color specifier"%string).
Proof.
  assert (Hne : Sample.fd_patches <> []) by (vm_compute; discriminate).
  assert (HL : plan Sample.getsize Sample.fd_patches = inr Sample.fd_layout)
    by (vm_compute; reflexivity).
  destruct (grid_rows_and_canvas Sample.getsize Sample.fd_patches Hne) as [_ Hall].
  destruct (Hall _ HL) as (Hc & _ & _ & _ & Hh).
  split; [exact HL|split; [reflexivity|split; [reflexivity|split; [exact Hc|split; [exact Hh|]]]]].
  assert (Hne' : Sample.weird_patches <> []) by (vm_compute; discriminate).
  assert (Hnl : no_empty_list Sample.weird_patches)
    by (vm_compute; repeat constructor; discriminate).
  destruct (grid_rows_and_canvas Sample.getsize Sample.weird_patches Hne') as [Hex Hall'].
  destruct (Hex Hnl) as [L HL'].
  split; [exists L; split; [exact HL'|exact (proj1 (proj2 (proj2 (proj2 (Hall' L HL')))))]|].
  vm_compute; reflexivity.
Defined.

Lemma columns_formula_witness :
  exists L, plan Sample.getsize Sample.fd_patches = inr L /\
    maxPatches L = 3 /\ wrapColumns L = 6 /\ columns L = 3.
Proof.
  destruct (plan Sample.getsize Sample.fd_patches) as [e|L] eqn:E;
    [vm_compute in E; discriminate|].
  exists L; split; [reflexivity|].
  assert (Hm : maxPatches L = 3).
  { vm_compute in E; injection E as <-; reflexivity. }
  destruct (columns_formula Sample.getsize Sample.fd_patches L E) as [_ [Hk _]].
  destruct (Hk 2) as [Hw Hc]; [lia|rewrite Hm; cbn; lia|].
  rewrite Hc, Hm; split; [reflexivity|split; [exact Hw|reflexivity]].
Defined.

Lemma patches_in_sorted_order_witness :
  (sample_load Sample.forest_desert = ([], inr Sample.fd_state) /\
   extract Sample.fd_state = inr Sample.fd_patches) /\
  dict_keys Sample.fd_patches = ["Desert"%string; "Forest"%string]%string /\
  Sorted str_lt (sorted (dict_keys Sample.fd_patches)).
Proof.
  assert (Hl : sample_load Sample.forest_desert = ([], inr Sample.fd_state))
    by (vm_compute; reflexivity).
  assert (He : extract Sample.fd_state = inr Sample.fd_patches)
    by (vm_compute; reflexivity).
  split; [split; assumption|split; [vm_compute; reflexivity|]].
  destruct (patches_in_sorted_order Sample.simplejson_load Sample.forest_desert []
              Sample.fd_state Sample.fd_patches Hl He) as [_ [[Hs _] _]].
  exact Hs.
Defined.

Lemma json_error_reported_and_skipped_witness :
  Sample.simplejson_load (fileText Sample.broken) =
    JSONDecodeError 1 1 "Expecting value"%string /\
  sample_run (Sample.broken :: Sample.forest_desert) =
    ("JSON error: w/settings/biomes/c/Broken.json: line 1, column 1: Expecting value"%string
       :: fst (sample_run Sample.forest_desert),
     snd (sample_run Sample.forest_desert)).
Proof.
  split; [reflexivity|].
  exact (proj2 (json_error_reported_and_skipped Sample.simplejson_load Sample.getsize
                  Sample.getsize Sample.getrgb [] Sample.broken Sample.forest_desert
                  1 1 "Expecting value"%string eq_refl)).
Defined.

(** C9: the colour ["zz"] is stored as the patch colour ["#zz"], which is
    not of the form [#rrggbb]. *)
Lemma patch_color_counterexample :
  sample_load [Sample.weird] =
    ([], inr [("Odd"%string, [("Weird"%string, JObj Sample.bad_hex_kvs)])]) /\
  extract [("Odd"%string, [("Weird"%string, JObj Sample.bad_hex_kvs)])] =
    inr [("Odd"%string, [{| biomeName := "Weird"%string; biomeColor := "#zz"%string |}])] /\
  hex_pattern "#zz"%string = false.
Proof. split; [|split]; vm_compute; reflexivity. Qed.

Lemma patch_color_is_normalised_source_witness :
  (sample_load [Sample.weird] =
     ([], inr [("Odd"%string, [("Weird"%string, JObj Sample.bad_hex_kvs)])]) /\
   extract [("Odd"%string, [("Weird"%string, JObj Sample.bad_hex_kvs)])] =
     inr [("Odd"%string, [{| biomeName := "Weird"%string; biomeColor := "#zz"%string |}])] /\
   dict_get "Odd"%string [("Odd"%string, [{| biomeName := "Weird"%string; biomeColor := "#zz"%string |}])] =
     Some [{| biomeName := "Weird"%string; biomeColor := "#zz"%string |}] /\
   In {| biomeName := "Weird"%string; biomeColor := "#zz"%string |}
      [{| biomeName := "Weird"%string; biomeColor := "#zz"%string |}]) /\
  exists s, colorCode s = "#zz"%string /\ startswith "%string#zz" "%string#" = true.
Proof.
  assert (Hl : sample_load [Sample.weird] =
                 ([], inr [("Odd"%string, [("Weird"%string, JObj Sample.bad_hex_kvs)])]))
    by (vm_compute; reflexivity).
  assert (He : extract [("Odd"%string, [("Weird"%string, JObj Sample.bad_hex_kvs)])] =
                 inr [("Odd"%string, [{| biomeName := "Weird"%string; biomeColor := "#zz"%string |}])])
    by (vm_compute; reflexivity).
  split; [split; [exact Hl|split; [exact He|split; [reflexivity|left; reflexivity]]]|].
  destruct (patch_color_is_normalised_source Sample.simplejson_load [Sample.weird] []
              _ _ "Odd"%string _ {| biomeName := "Weird"%string; biomeColor := "#zz"%string |} Hl He
              eq_refl (or_introl eq_refl))
    as (d & b & cv & cs & s & _ & _ & _ & _ & _ & Hs & Hh & _).
  exists s; split; [symmetry; exact Hs|exact Hh].
Defined.

Lemma enabled_value_ignored_witness :
  (Forall2 (file_rel Sample.simplejson_load) Sample.forest_desert
           Sample.forest_desert_toggled /\
   sample_run Sample.forest_desert = sample_run Sample.forest_desert_toggled) /\
  ((load_files Sample.simplejson_load [] [] = ([], inr []) /\
    Sample.simplejson_load (fileText Sample.unflagged) =
      Parsed (JObj Sample.no_enabled_kvs) /\
    dict_get "enabled"%string (rev Sample.no_enabled_kvs) = None) /\
   sample_run ([] ++ Sample.unflagged :: Sample.forest_desert) =
     ([], inl (KeyError "enabled"%string))).
Proof.
  destruct (enabled_value_ignored Sample.simplejson_load Sample.getsize Sample.getsize
              Sample.getrgb) as [H1 H2].
  assert (Hr : Forall2 (file_rel Sample.simplejson_load) Sample.forest_desert
                       Sample.forest_desert_toggled).
  { repeat apply Forall2_cons; try apply Forall2_nil.
    all: split; [reflexivity|]; simpl; right; do 2 eexists.
    all: split; [reflexivity|split; [reflexivity|]].
    all: repeat apply Forall2_cons; try apply Forall2_nil.
    all: split; [reflexivity|first [left; reflexivity | right; reflexivity]]. }
  split; [split; [exact Hr|exact (H1 _ _ Hr)]|].
  split; [split; [reflexivity|split; reflexivity]|].
  apply (H2 [] Sample.unflagged Sample.forest_desert [] [] Sample.no_enabled_kvs);
    reflexivity.
Defined.

(** Extras on the sample inputs. *)

Lemma run_draws_each_patch_once_witness :
  sample_run Sample.forest_desert = ([], inr Sample.fd_image) /\
  exists st bp,
    load_files Sample.simplejson_load [] Sample.forest_desert = ([], inr st) /\
    extract st = inr bp /\
    Forall2 (fun p rgb => Sample.getrgb (biomeColor p) = Some rgb)
            (patches_in_order bp) (rect_fills (imgOps Sample.fd_image)).
Proof.
  assert (H : sample_run Sample.forest_desert = ([], inr Sample.fd_image))
    by (vm_compute; reflexivity).
  split; [exact H|].
  exact (run_draws_each_patch_once Sample.simplejson_load Sample.getsize Sample.getsize
           Sample.getrgb _ _ _ H).
Defined.

Lemma run_rectangles_inside_canvas_witness :
  (forall s, 0 <= fst (Sample.getsize s) /\ 0 <= snd (Sample.getsize s)) /\
  sample_run Sample.forest_desert = ([], inr Sample.fd_image) /\
  Forall (rect_inside (imgWidth Sample.fd_image) (imgHeight Sample.fd_image))
         (imgOps Sample.fd_image).
Proof.
  assert (Hs : forall s, 0 <= fst (Sample.getsize s) /\ 0 <= snd (Sample.getsize s))
    by (intros s; unfold Sample.getsize; cbn [fst snd]; lia).
  assert (H : sample_run Sample.forest_desert = ([], inr Sample.fd_image))
    by (vm_compute; reflexivity).
  split; [exact Hs|split; [exact H|]].
  exact (run_rectangles_inside_canvas Sample.simplejson_load Sample.getsize Sample.getsize
           Sample.getrgb _ _ _ Hs H).
Defined.

Lemma run_saves_iff_colors_parse_witness :
  sample_load [Sample.weird] = ([], inr Sample.weird_state) /\
  extract Sample.weird_state = inr Sample.weird_patches /\
  Sample.weird_patches <> [] /\
  Exists (fun p => Sample.getrgb (biomeColor p) = None) (patches_in_order Sample.weird_patches) /\
  sample_run [Sample.weird] = ([], inl (ValueError "unknown color specifier"%string)).
Proof.
  assert (Hl : sample_load [Sample.weird] = ([], inr Sample.weird_state))
    by (vm_compute; reflexivity).
  assert (He : extract Sample.weird_state = inr Sample.weird_patches)
    by (vm_compute; reflexivity).
  assert (Hn : Sample.weird_patches <> []) by (vm_compute; discriminate).
  assert (Hx : Exists (fun p => Sample.getrgb (biomeColor p) = None)
                 (patches_in_order Sample.weird_patches))
    by (vm_compute; constructor; reflexivity).
  split; [exact Hl|split; [exact He|split; [exact Hn|split; [exact Hx|]]]].
  exact (proj2 (run_saves_iff_colors_parse Sample.simplejson_load Sample.getsize Sample.getsize
                  Sample.getrgb _ _ _ _ Hl He Hn) Hx).
Defined.

Lemma extract_types_with_colors_witness :
  sample_load Sample.forest_desert = ([], inr Sample.fd_state) /\
  extract Sample.fd_state = inr Sample.fd_patches /\
  (forall t ps, dict_get t Sample.fd_patches = Some ps -> ps <> []) /\
  forall t, (exists ps, dict_get t Sample.fd_patches = Some ps) <->
    exists d n b cv c cs, dict_get t Sample.fd_state = Some d /\ dict_get n d = Some b /\
      getitem b "biomeColors"%string = inr cv /\ iter_colors cv = inr (map JStr (c :: cs)).
Proof.
  assert (Hl : sample_load Sample.forest_desert = ([], inr Sample.fd_state))
    by (vm_compute; reflexivity).
  assert (He : extract Sample.fd_state = inr Sample.fd_patches) by (vm_compute; reflexivity).
  split; [exact Hl|split; [exact He|]].
  exact (extract_types_with_colors Sample.simplejson_load _ _ _ _ Hl He).
Defined.

Lemma string_colors_split_into_chars_witness :
  exists ps, dict_get "Plain"%string Sample.plain_patches = Some ps /\
    In {| biomeName := "Plain"%string; biomeColor := colorCode "a"%string |} ps.
Proof.
  apply (string_colors_split_into_chars Sample.simplejson_load [Sample.plain] []
           Sample.plain_state Sample.plain_patches "Plain"%string [("Plain"%string, JObj Sample.plain_kvs)]
           "Plain"%string (JObj Sample.plain_kvs) "ab"%string "a"%char).
  - vm_compute; reflexivity.
  - vm_compute; reflexivity.
  - vm_compute; reflexivity.
  - vm_compute; reflexivity.
  - vm_compute; reflexivity.
  - simpl; left; reflexivity.
Defined.

Lemma load_diagnostics_one_per_bad_file_witness :
  sample_load (Sample.broken :: Sample.forest_desert) =
    (fst (sample_load (Sample.broken :: Sample.forest_desert)), inr Sample.fd_state) /\
  fst (sample_load (Sample.broken :: Sample.forest_desert)) =
    flat_map (json_diag Sample.simplejson_load) (Sample.broken :: Sample.forest_desert).
Proof.
  assert (H : sample_load (Sample.broken :: Sample.forest_desert) =
                (fst (sample_load (Sample.broken :: Sample.forest_desert)), inr Sample.fd_state))
    by (vm_compute; reflexivity).
  split; [exact H|].
  exact (load_diagnostics_one_per_bad_file Sample.simplejson_load _ _ _ _ H).
Defined.

Lemma load_file_stores_record_witness :
  exists st',
    load_file Sample.simplejson_load Sample.fd_state Sample.oak_again = ([], inr st') /\
    (exists g, dict_get "Forest"%string st' = Some g /\
       dict_get "Oak"%string g = Some (JObj [("enabled"%string, JBool false); ("biomeType"%string, JStr "Forest"%string);
                                      ("biomeColors"%string, JArr [JStr "#008000"%string])]) /\
       forall n, n <> "Oak"%string -> dict_get n g = dict_get n (dict_default [] "Forest"%string Sample.fd_state)) /\
    (forall t', t' <> "Forest"%string -> dict_get t' st' = dict_get t' Sample.fd_state).
Proof.
  apply (load_file_stores_record Sample.simplejson_load Sample.fd_state Sample.oak_again
           (JObj [("enabled"%string, JBool false); ("biomeType"%string, JStr "Forest"%string);
                  ("biomeColors"%string, JArr [JStr "#008000"%string])]) (JBool false) "Forest"%string).
  - vm_compute; reflexivity.
  - vm_compute; reflexivity.
  - vm_compute; reflexivity.
Defined.

Lemma glob_path_basename_witness :
  splitext_root (basename ("w/settings/biomes/a" ++ "/" ++ "Oak" ++ ".json")%string) = "Oak"%string.
Proof.
  apply glob_path_basename.
  - simpl; intuition discriminate.
  - reflexivity.
Defined.

Lemma plan_cells_fit_labels_witness :
  plan Sample.getsize Sample.fd_patches = inr Sample.fd_layout /\
  patchPadding Sample.fd_layout = fst (Sample.getsize "   "%string) /\
  (exists tp, In tp Sample.fd_patches /\
     firstColumnWidth Sample.fd_layout =
       fst (Sample.getsize (fst tp)) + 2 * patchPadding Sample.fd_layout).
Proof.
  assert (H : plan Sample.getsize Sample.fd_patches = inr Sample.fd_layout)
    by (vm_compute; reflexivity).
  split; [exact H|].
  destruct (plan_cells_fit_labels Sample.getsize _ _ H) as (Hp & _ & Hw & _).
  split; [exact Hp|exact Hw].
Defined.

Lemma plan_ignores_colors_witness :
  type_names Sample.fd_patches = type_names Sample.fd_patches_grey /\
  plan Sample.getsize Sample.fd_patches = plan Sample.getsize Sample.fd_patches_grey.
Proof.
  assert (H : type_names Sample.fd_patches = type_names Sample.fd_patches_grey)
    by (vm_compute; reflexivity).
  split; [exact H|exact (plan_ignores_colors Sample.getsize _ _ H)].
Defined.

Lemma run_outlines_black_texts_bw_witness :
  sample_run Sample.forest_desert = ([], inr Sample.fd_image) /\
  Forall op_colors_ok (imgOps Sample.fd_image).
Proof.
  assert (H : sample_run Sample.forest_desert = ([], inr Sample.fd_image))
    by (vm_compute; reflexivity).
  split; [exact H|].
  exact (run_outlines_black_texts_bw Sample.simplejson_load Sample.getsize Sample.getsize
           Sample.getrgb _ _ _ H).
Defined.
